(** * The RTF formatter of Pygments ([pygments/formatters/rtf.py])

    A shallow embedding of [RtfFormatter] and the properties its
    specification states about it.

    Python strings are sequences of code points: a [str] is a [list N].
    The output file is the list of the strings passed to [outfile.write],
    in order; the document is their concatenation.  Python exceptions are
    an explicit result type. *)

From Stdlib Require Import ZArith NArith Ascii String Decimal.
From stdpp Require Import gmap list strings.

Local Open Scope N_scope.
Local Open Scope list_scope.

(** ** Python strings *)

Abbreviation pystr := (list N).

(** A string literal of the source, as its code points. *)
Definition lit (s : string) : pystr :=
  (λ a, N_of_ascii a) <$> list_ascii_of_string s.

Definition NEWLINE : N := 10.
Definition SPACE : N := 32.
Definition BACKSLASH : N := 92.
Definition LBRACE : N := 123.
Definition RBRACE : N := 125.

(** [str(n)] and ['%d' % n] on an integer. *)
Fixpoint digits (d : Decimal.uint) : pystr :=
  match d with
  | Decimal.Nil => []
  | Decimal.D0 d => 48 :: digits d
  | Decimal.D1 d => 49 :: digits d
  | Decimal.D2 d => 50 :: digits d
  | Decimal.D3 d => 51 :: digits d
  | Decimal.D4 d => 52 :: digits d
  | Decimal.D5 d => 53 :: digits d
  | Decimal.D6 d => 54 :: digits d
  | Decimal.D7 d => 55 :: digits d
  | Decimal.D8 d => 56 :: digits d
  | Decimal.D9 d => 57 :: digits d
  end.

Definition str (n : Z) : pystr :=
  match n with
  | Z0 => [48]
  | Zpos p => digits (Pos.to_uint p)
  | Zneg p => 45 :: digits (Pos.to_uint p)
  end.

(** [s.replace(old, new)] where [old] is one character, which is the only
    way the formatter calls it. *)
Definition replace (old : N) (new : pystr) (s : pystr) : pystr :=
  c ← s; if c =? old then new else [c].

(** [s.split(sep)] where [sep] is one character. *)
Fixpoint split (sep : N) (s : pystr) : list pystr :=
  match s with
  | [] => [[]]
  | c :: s' =>
      if c =? sep then [] :: split sep s'
      else match split sep s' with
           | [] => [[c]]
           | p :: ps => (c :: p) :: ps
           end
  end.

(** [s.endswith(c)] for one character [c]. *)
Definition endswith (s : pystr) (c : N) : bool :=
  match last s with
  | Some d => d =? c
  | None => false
  end.

(** [s.rjust(width)]: padded with spaces on the left, never truncated. *)
Definition rjust (s : pystr) (width : nat) : pystr :=
  replicate (width - length s)%nat SPACE ++ s.

(** ** [pygments.util.surrogatepair] *)

(** Modelled from the spec: [surrogatepair] lives in [pygments/util.py],
    which is not among the sources.  The specification asks for "the
    standard UTF-16 surrogate-pair decomposition (high surrogate then low
    surrogate)": the code point less 0x10000 is a 20-bit number, whose top
    ten bits are added to 0xD800 and whose low ten bits to 0xDC00. *)
Definition surrogatepair (c : N) : N * N :=
  let v := c - 0x10000 in
  (0xD800 + N.shiftr v 10, 0xDC00 + N.land v 0x3FF).

(** ** [RtfFormatter._escape] and [RtfFormatter._escape_text] *)

Definition _escape (text : pystr) : pystr :=
  replace RBRACE (lit "\}")
    (replace LBRACE (lit "\{")
       (replace BACKSLASH (lit "\\") text)).

(** The body of the loop of [_escape_text]: what one character appends
    to [buf]. *)
Definition escape_text_char (cn : N) : pystr :=
  if cn <? 2 ^ 7 then [cn]
  else if (2 ^ 7 <=? cn) && (cn <? 2 ^ 16) then
    lit "{\u" ++ str (Z.of_N cn) ++ lit "}"
  else if 2 ^ 16 <=? cn then
    let '(h, l) := surrogatepair cn in
    lit "{\u" ++ str (Z.of_N h) ++ lit "}{\u" ++ str (Z.of_N l) ++ lit "}"
  else [].

Definition _escape_text (text : pystr) : pystr :=
  match text with
  | [] => []
  | _ =>
      let text := _escape text in
      let buf := escape_text_char <$> text in
      replace NEWLINE (lit "\par" ++ [NEWLINE]) (concat buf)
  end.

(** ** Exceptions *)

Inductive exn := ValueError | KeyError | ZeroDivisionError.

Inductive result (A : Type) :=
  | Ok (a : A)
  | Raise (e : exn).
Arguments Ok {A} a.
Arguments Raise {A} e.

#[export] Instance result_ret : MRet result := λ A a, Ok a.
#[export] Instance result_bind : MBind result := λ A B k c,
  match c with
  | Ok a => k a
  | Raise e => Raise e
  end.

(** A [for] loop whose body may raise. *)
Fixpoint for_each {A S : Type} (body : S → A → result S) (l : list A) (s : S)
  : result S :=
  match l with
  | [] => Ok s
  | a :: l' => s' ← body s a; for_each body l' s'
  end.

(** [a % b] on integers. *)
Definition pymod (a b : Z) : result Z :=
  if (b =? 0)%Z then Raise ZeroDivisionError else Ok (a mod b)%Z.

(** [s[i:j]] for constants [0 <= i <= j]. *)
Definition slice (i j : nat) (s : pystr) : pystr :=
  take (j - i)%nat (drop i s).

(** ** Token types and styles *)

(** Modelled from the spec: token types live in [pygments/token.py], which
    is not among the sources.  A category is a node of a tree in which
    each node has zero or one parent and the root has none: a token type
    is the tuple of the names that lead to it from the root [Token],
    innermost name first here, so that the parent is the tail.  The root
    is the empty tuple. *)
Definition _TokenType := list string.

Definition parent (t : _TokenType) : option _TokenType :=
  match t with
  | [] => None
  | _ :: p => Some p
  end.

(** The truth value of [ttype.parent]: [None] is false, and so is a tuple
    that is empty, which the root is. *)
Definition has_parent (t : _TokenType) : bool :=
  match parent t with
  | Some (_ :: _) => true
  | _ => false
  end.

(** [Token.Literal.String.Doc] *)
Definition Doc : _TokenType := ["Doc"; "String"; "Literal"]%string.

Definition token : Type := _TokenType * pystr.

(** Modelled from the spec: the record [style_for_token] returns
    ([pygments/style.py] is not among the sources).  A colour is the
    string of its six hexadecimal digits; an unset colour is falsy and is
    the empty string here. *)
Record StyleDict := {
  color : pystr;
  bgcolor : pystr;
  border : pystr;
  bold : bool;
  italic : bool;
  underline : bool
}.

(** Modelled from the spec: the style class, as the three ways the
    formatter uses it: [styles_token], [style_for_token] and the
    iteration over its (token type, style) pairs in a stable order.  The
    pairs are those of the token types the style knows; the lookup has a
    value here for the other types too. *)
Record Style := {
  styles_token : _TokenType → bool;
  style_for_token : _TokenType → StyleDict;
  style_items : list (_TokenType * StyleDict)
}.

(** ** [RtfFormatter.__init__] *)

(** The options the formatter reads; an option that was not given is
    [None], and [linenos] is the truth value of the option. *)
Record Options := {
  opt_style : Style;
  opt_fontface : option pystr;
  opt_fontsize : option Z;
  opt_linenos : bool;
  opt_lineno_fontsize : option Z;
  opt_linenostart : option Z;
  opt_linenostep : option Z
}.

(** Modelled from the spec: [pygments.util.get_int_opt] on an option
    whose value is an integer already: the value, or the default. *)
Definition get_int_opt (o : option Z) (default : Z) : Z :=
  match o with
  | Some v => v
  | None => default
  end.

Record RtfFormatter := {
  style : Style;
  fontface : pystr;
  fontsize : Z;
  linenos : bool;
  lineno_fontsize : Z;
  linenostart : Z;
  linenostep : Z
}.

Definition __init__ (options : Options) : RtfFormatter := {|
  style := opt_style options;
  fontface := match opt_fontface options with Some s => s | None => [] end;
  fontsize := get_int_opt (opt_fontsize options) 0;
  linenos := opt_linenos options;
  lineno_fontsize := get_int_opt (opt_lineno_fontsize options) 18;
  linenostart := Z.abs (get_int_opt (opt_linenostart options) 1);
  linenostep := Z.abs (get_int_opt (opt_linenostep options) 1)
|}.

(** ** [RtfFormatter.format_unencoded] *)

Section format_unencoded.

(** The builtin [int(s, 16)]: the integer, or nothing when it raises
    [ValueError]. *)
Variable int16 : pystr → option Z.

Definition int_16 (s : pystr) : result Z :=
  match int16 s with
  | Some n => Ok n
  | None => Raise ValueError
  end.

(** *** The colour table (lines 122-134) *)

(** The string written for a colour that is new. *)
Definition color_entry (color : pystr) : result pystr :=
  r ← int_16 (slice 0 2 color);
  g ← int_16 (slice 2 4 color);
  b ← int_16 (slice 4 6 color);
  mret (lit "\red" ++ str r ++ lit "\green" ++ str g
        ++ lit "\blue" ++ str b ++ lit ";").

(** The body of the inner loop: [color_mapping], [offset] and the output
    file before and after one colour. *)
Definition color_step (st : gmap pystr Z * Z * list pystr) (color : pystr)
  : result (gmap pystr Z * Z * list pystr) :=
  let '(color_mapping, offset, out) := st in
  if bool_decide (color ≠ []) && bool_decide (color_mapping !! color = None)
  then
    let color_mapping := <[color := offset]> color_mapping in
    entry ← color_entry color;
    mret (color_mapping, (offset + 1)%Z, out ++ [entry])
  else mret st.

Definition color_table (sty : Style) (out : list pystr)
  : result (gmap pystr Z * Z * list pystr) :=
  for_each
    (λ st item,
       let style := item.2 in
       for_each color_step [color style; bgcolor style; border style] st)
    (style_items sty) (∅, 1%Z, out).

(** *** The first pass over the tokens (lines 144-163) *)

Definition prepass_token (st : Z * list token) (tok : token)
  : Z * list token :=
  let '(num_of_lines, tokens) := st in
  let '(ttype, value) := tok in
  if bool_decide (ttype = Doc) then
    let lines := split NEWLINE value in
    foldl (λ '(num_of_lines, tokens) line,
             ((num_of_lines + 1)%Z, tokens ++ [(ttype, line ++ [NEWLINE])]))
          (num_of_lines, tokens) lines
  else if bool_decide (value = [NEWLINE]) then
    ((num_of_lines + 1)%Z, tokens ++ [(ttype, value)])
  else
    (num_of_lines, tokens ++ [(ttype, value)]).

Definition prepass (tokensource : list token) : Z * list token :=
  foldl prepass_token (0%Z, []) tokensource.

(** *** The highlighting loop (lines 174-218) *)

(** [while not self.style.styles_token(ttype) and ttype.parent]: the
    walk goes on while the type has no style and its parent is true, so
    it stops at a type right under the root, styled or not. *)
Fixpoint resolve (sty : Style) (ttype : _TokenType) : _TokenType :=
  if negb (styles_token sty ttype) then
    match ttype with
    | _ :: ((_ :: _) as p) => resolve sty p
    | _ => ttype
    end
  else ttype.

(** [color_mapping[c]] *)
Definition getitem (color_mapping : gmap pystr Z) (c : pystr) : result Z :=
  match color_mapping !! c with
  | Some i => Ok i
  | None => Raise KeyError
  end.

(** Lines 198-211: the control words of a style, joined. *)
Definition style_start (color_mapping : gmap pystr Z) (style : StyleDict)
  : result pystr :=
  let buf : list pystr := [] in
  buf ← (if bool_decide (bgcolor style ≠ []) then
           i ← getitem color_mapping (bgcolor style);
           mret (buf ++ [lit "\cb" ++ str i])
         else mret buf);
  buf ← (if bool_decide (color style ≠ []) then
           i ← getitem color_mapping (color style);
           mret (buf ++ [lit "\cf" ++ str i])
         else mret buf);
  let buf := if bold style then buf ++ [lit "\b"] else buf in
  let buf := if italic style then buf ++ [lit "\i"] else buf in
  let buf := if underline style then buf ++ [lit "\ul"] else buf in
  buf ← (if bool_decide (border style ≠ []) then
           i ← getitem color_mapping (border style);
           mret (buf ++ [lit "\chbrdr\chcfpat" ++ str i])
         else mret buf);
  mret (concat buf).

(** The group written in front of a line (lines 185-191). *)
Definition lineno_group (f : RtfFormatter) (lineno_str : pystr) : pystr :=
  lit "{\fs" ++ str (lineno_fontsize f) ++ lit " \cf1 " ++ lineno_str
  ++ lit "  }".

(** The body of the loop: [lineno], [output_lineno] and the output file
    before and after one token. *)
Definition render_token (f : RtfFormatter) (color_mapping : gmap pystr Z)
    (linenos_width : nat) (st : Z * bool * list pystr) (tok : token)
  : result (Z * bool * list pystr) :=
  let '(lineno, output_lineno, out) := st in
  let '(ttype, value) := tok in
  let ttype := resolve (style f) ttype in
  let style := style_for_token (style f) ttype in
  '(lineno, output_lineno, out) ←
    (if linenos f then
       '(output_lineno, out) ←
         (if output_lineno then
            m ← pymod (lineno - linenostep f) (linenostep f);
            let lineno_str :=
              if (m =? 0)%Z then rjust (str lineno) linenos_width
              else rjust [] linenos_width in
            mret (false, out ++ [lineno_group f lineno_str])
          else mret (output_lineno, out));
       if endswith value NEWLINE then mret ((lineno + 1)%Z, true, out)
       else mret (lineno, output_lineno, out)
     else mret (lineno, output_lineno, out));
  start ← style_start color_mapping style;
  let out := if bool_decide (start ≠ [])
             then out ++ [lit "{" ++ start ++ lit " "] else out in
  let out := out ++ [_escape_text value] in
  let out := if bool_decide (start ≠ []) then out ++ [lit "}"] else out in
  mret (lineno, output_lineno, out).

(** The first string written (lines 116-120). *)
Definition header (f : RtfFormatter) : pystr :=
  lit "{\rtf1\ansi\uc0\deff0{\fonttbl{\f0\fmodern\fprq1\fcharset0"
  ++ (if bool_decide (fontface f ≠ []) then lit " " ++ _escape (fontface f)
      else [])
  ++ lit ";}}{\colortbl;".

(** The strings written to [outfile], in order.  Without line numbers
    [lineno], [output_lineno] and [linenos_width] are unbound in the
    source and never read; they are given a value here. *)
Definition format_unencoded (f : RtfFormatter) (tokensource : list token)
  : result (list pystr) :=
  let out := [header f] in
  '(color_mapping, offset, out) ← color_table (style f) out;
  let out := out ++ [lit "}\f0 "] in
  let out := if bool_decide (fontsize f ≠ 0%Z)
             then out ++ [lit "\fs" ++ str (fontsize f)] else out in
  let '(tokens, linenos_width, lineno, output_lineno) :=
    if linenos f then
      let '(num_of_lines, tokens) := prepass tokensource in
      (tokens, length (str num_of_lines), linenostart f, true)
    else (tokensource, 0%nat, 0%Z, false) in
  '(_, _, out) ←
    for_each (render_token f color_mapping linenos_width) tokens
             (lineno, output_lineno, out);
  mret (out ++ [lit "}"]).

End format_unencoded.

(** ** Notions of the specification *)

(** The ASCII printable characters. *)
Definition printable (c : N) : Prop := 32 ≤ c ≤ 126.

(** Reversing the structural escaping: a backslash followed by a
    backslash, ["{"] or ["}"] is mapped back to that character. *)
Fixpoint unescape (s : pystr) : pystr :=
  match s with
  | [] => []
  | c :: s' =>
      match s' with
      | d :: s'' =>
          if (c =? BACKSLASH)
             && ((d =? BACKSLASH) || (d =? LBRACE) || (d =? RBRACE))
          then d :: unescape s''
          else c :: unescape s'
      | [] => [c]
      end
  end.

(** What the escaper puts in front of a character below 128. *)
Definition escape_prefix (cn : N) : pystr :=
  if bool_decide (cn ∈ [BACKSLASH; LBRACE; RBRACE]) then lit "\"
  else if bool_decide (cn = NEWLINE) then lit "\par"
  else [].

(** [s.startswith(p)] *)
Fixpoint startswith (s p : pystr) {struct p} : bool :=
  match p with
  | [] => true
  | c :: p' =>
      match s with
      | [] => false
      | d :: s' => (c =? d) && startswith s' p'
      end
  end.

(** A string written to the output file is a line-number slot when it
    opens a group with a font size: nothing else the formatter writes
    starts like that. *)
Definition is_slot (chunk : pystr) : bool := startswith chunk (lit "{\fs").

(** What a slot holds for a line: the numeral or blanks (lines 185-188). *)
Definition lineno_str (f : RtfFormatter) (linenos_width : nat) (lineno : Z)
  : pystr :=
  if ((lineno - linenostep f) mod linenostep f =? 0)%Z
  then rjust (str lineno) linenos_width
  else rjust [] linenos_width.

(** The line numbers in front of which the loop writes a slot, from the
    state it is in: a token is preceded by a slot when a number is owed,
    and a token that ends in a newline makes the next one owe one. *)
Fixpoint line_starts (lineno : Z) (output_lineno : bool)
    (tokens : list token) : list Z :=
  match tokens with
  | [] => []
  | tok :: rest =>
      (if output_lineno then [lineno] else [])
      ++ (if endswith tok.2 NEWLINE then line_starts (lineno + 1)%Z true rest
          else line_starts lineno false rest)
  end.

(** What is written for a token after its slot: the escaped text, in a
    group of its own when there is a style prefix. *)
Definition styled_run (start body : pystr) : list pystr :=
  if bool_decide (start ≠ []) then [lit "{" ++ start ++ lit " "; body; lit "}"]
  else [body].

(** The control words of the specification, in its fixed order, each with
    the condition under which it is part of the prefix. *)
Definition control_words (color_mapping : gmap pystr Z) (style : StyleDict)
  : list (bool * pystr) :=
  [ (bool_decide (bgcolor style ≠ []),
     lit "\cb" ++ str (color_mapping !!! bgcolor style));
    (bool_decide (color style ≠ []),
     lit "\cf" ++ str (color_mapping !!! color style));
    (bold style, lit "\b");
    (italic style, lit "\i");
    (underline style, lit "\ul");
    (bool_decide (border style ≠ []),
     lit "\chbrdr\chcfpat" ++ str (color_mapping !!! border style)) ].

Definition style_prefix (color_mapping : gmap pystr Z) (style : StyleDict)
  : pystr :=
  concat (w ← control_words color_mapping style;
          if (w.1 : bool) then [w.2] else []).

(** The colours of a style that are set. *)
Definition colors_of (style : StyleDict) : list pystr :=
  c ← [color style; bgcolor style; border style];
  if bool_decide (c ≠ []) then [c] else [].

(** The colours the table builder meets, in the order of its scan. *)
Definition scanned_colors (sty : Style) : list pystr :=
  item ← style_items sty; colors_of item.2.

(** The colours of a list that are not in [seen], each once, in the order
    of their first occurrence. *)
Fixpoint first_occurrences (seen l : list pystr) : list pystr :=
  match l with
  | [] => []
  | c :: l' =>
      if bool_decide (c ∈ seen) then first_occurrences seen l'
      else c :: first_occurrences (seen ++ [c]) l'
  end.

(** The slots among the strings written. *)
Definition slots (out : list pystr) : list pystr :=
  filter (λ chunk, is_slot chunk = true) out.

(** What the first pass makes of one token, and how many line
    boundaries it counts for it. *)
Definition fragments (tok : token) : list token :=
  if bool_decide (tok.1 = Doc)
  then (λ line, (tok.1, line ++ [NEWLINE])) <$> split NEWLINE tok.2
  else [tok].

Definition boundaries (tok : token) : Z :=
  if bool_decide (tok.1 = Doc) then Z.of_nat (length (split NEWLINE tok.2))
  else if bool_decide (tok.2 = [NEWLINE]) then 1%Z
  else 0%Z.

(** Whether a number is owed after the tokens. *)
Definition pending (output_lineno : bool) (tokens : list token) : bool :=
  match last tokens with
  | Some tok => endswith tok.2 NEWLINE
  | None => output_lineno
  end.

(** The tokens that end in a newline. *)
Definition newline_ended (tokens : list token) : list token :=
  filter (λ tok, endswith tok.2 NEWLINE = true) tokens.

(** The colour table agrees with a list of distinct colours: the colour
    at position [k] has the index [k + 1], no other colour has an index,
    and the next index is one more than their number. *)
Definition table_of (ds : list pystr) (color_mapping : gmap pystr Z)
    (offset : Z) : Prop :=
  offset = (Z.of_nat (length ds) + 1)%Z
  ∧ ∀ c i, color_mapping !! c = Some i
           ↔ ∃ k : nat, ds !! k = Some c ∧ i = (Z.of_nat k + 1)%Z.

(** ** A formatter to run *)

Definition hexdigit (c : N) : option Z :=
  if (48 <=? c) && (c <=? 57) then Some (Z.of_N (c - 48))
  else if (97 <=? c) && (c <=? 102) then Some (Z.of_N (c - 87))
  else if (65 <=? c) && (c <=? 70) then Some (Z.of_N (c - 55))
  else None.

(** [int(s, 16)] on a string of hexadecimal digits, which is what a
    colour of a style holds. *)
Definition hex_int (s : pystr) : option Z :=
  match s with
  | [] => None
  | _ => foldl (λ acc c, a ← acc; d ← hexdigit c; Some (16 * a + d)%Z)
               (Some 0%Z) s
  end.

Definition Keyword : _TokenType := ["Keyword"]%string.
Definition Name : _TokenType := ["Name"]%string.
Definition Text : _TokenType := ["Text"]%string.
Definition Comment : _TokenType := ["Comment"]%string.

Definition no_style : StyleDict :=
  {| color := []; bgcolor := []; border := [];
     bold := false; italic := false; underline := false |}.

Definition keyword_style : StyleDict :=
  {| color := lit "FF0000"; bgcolor := []; border := [];
     bold := true; italic := false; underline := false |}.

Definition name_style : StyleDict :=
  {| color := lit "0000FF"; bgcolor := []; border := [];
     bold := false; italic := false; underline := false |}.

(** The style of the scenario of the specification: keywords are bold
    and red, names are blue. *)
Definition example_style : Style :=
  {| styles_token t := bool_decide (t ∈ [[]; Keyword; Name]);
     style_for_token t :=
       if bool_decide (t = Keyword) then keyword_style
       else if bool_decide (t = Name) then name_style
       else no_style;
     style_items := [([], no_style); (Keyword, keyword_style);
                     (Name, name_style)] |}.

(** A style without any colour. *)
Definition bare_style : Style :=
  {| styles_token t := bool_decide (t = []);
     style_for_token t := no_style;
     style_items := [([], no_style)] |}.

Definition example_options (sty : Style) (linenos : bool)
    (start step : option Z) : Options :=
  {| opt_style := sty; opt_fontface := None; opt_fontsize := None;
     opt_linenos := linenos; opt_lineno_fontsize := None;
     opt_linenostart := start; opt_linenostep := step |}.

Definition newline_token : token := (Text, [NEWLINE]).

(** The options with another first line number, or another step. *)
Definition with_linenostart (options : Options) (v : Z) : Options :=
  {| opt_style := opt_style options;
     opt_fontface := opt_fontface options;
     opt_fontsize := opt_fontsize options;
     opt_linenos := opt_linenos options;
     opt_lineno_fontsize := opt_lineno_fontsize options;
     opt_linenostart := Some v;
     opt_linenostep := opt_linenostep options |}.

Definition with_linenostep (options : Options) (v : Z) : Options :=
  {| opt_style := opt_style options;
     opt_fontface := opt_fontface options;
     opt_fontsize := opt_fontsize options;
     opt_linenos := opt_linenos options;
     opt_lineno_fontsize := opt_lineno_fontsize options;
     opt_linenostart := opt_linenostart options;
     opt_linenostep := Some v |}.

(** The document of a run, empty when the run raises. *)
Definition document (f : RtfFormatter) (tokensource : list token)
  : list pystr :=
  match format_unencoded hex_int f tokensource with
  | Ok out => out
  | Raise _ => []
  end.




(** The scenario of the specification with a doc string after it, every
    line numbered. *)
Definition numbered_formatter : RtfFormatter :=
  __init__ (example_options example_style true None None).

Definition scenario : list token :=
  [ (Keyword, lit "if"); (Text, lit " "); (Name, lit "x"); newline_token;
    (Doc, lit "a" ++ [NEWLINE] ++ lit "b"); newline_token ].

Definition scenario_document : list pystr :=
  Eval vm_compute in document numbered_formatter scenario.

(** A comment that holds its newline, and a line without a newline. *)
Definition comment_line : list token :=
  [ (Comment, lit "# c" ++ [NEWLINE]); newline_token ].

Definition comment_document : list pystr :=
  Eval vm_compute in document numbered_formatter comment_line.

Definition open_line : list token := [ (Text, lit "a") ].

Definition open_document : list pystr :=
  Eval vm_compute in document numbered_formatter open_line.

(** A line without a newline under a style without colours, numbered. *)
Definition bare_formatter : RtfFormatter :=
  __init__ (example_options bare_style true None None).

(** The scenario of the specification, without line numbers. *)
Definition plain_formatter : RtfFormatter :=
  __init__ (example_options example_style false None None).

(** ** The group structure of a document *)

(** Reading a document one character at a time: the number of groups
    that are open, and whether the character before was a backslash that
    escapes this one.  A closing brace with no group open is an error. *)
Definition group_step (st : option (nat * bool)) (c : N)
  : option (nat * bool) :=
  match st with
  | None => None
  | Some (depth, escaped) =>
      if escaped then Some (depth, false)
      else if c =? BACKSLASH then Some (depth, true)
      else if c =? LBRACE then Some (S depth, false)
      else if c =? RBRACE then
        match depth with
        | O => None
        | S d => Some (d, false)
        end
      else Some (depth, false)
  end.

Definition groups (s : pystr) (st : option (nat * bool))
  : option (nat * bool) :=
  foldl group_step st s.

(** A string that opens no group it does not close, closes none it did
    not open, and does not end in a lone backslash. *)
Definition neutral (s : pystr) : Prop :=
  ∀ depth, groups s (Some (depth, false)) = Some (depth, false).

(** A character that is neither a backslash nor a brace. *)
Definition plain (c : N) : Prop :=
  c ≠ BACKSLASH ∧ c ≠ LBRACE ∧ c ≠ RBRACE.

(** The newlines of a string. *)
Definition newlines (s : pystr) : nat :=
  length (filter (λ c, c = NEWLINE) s).

(** A character of ASCII. *)
Definition seven_bit (c : N) : Prop := c < 128.

(** The formatter with other line-number options. *)
Definition renumbered (f : RtfFormatter)
    (lineno_fontsize linenostart linenostep : Z) : RtfFormatter :=
  {| style := style f; fontface := fontface f; fontsize := fontsize f;
     linenos := linenos f; lineno_fontsize := lineno_fontsize;
     linenostart := linenostart; linenostep := linenostep |}.

(** The strings written for a token when no slot is due. *)
Definition token_run (f : RtfFormatter) (color_mapping : gmap pystr Z)
    (tok : token) : list pystr :=
  styled_run
    (style_prefix color_mapping
       (style_for_token (style f) (resolve (style f) tok.1)))
    (_escape_text tok.2).

(** The scenario of the specification, rendered without line numbers. *)
Definition scenario_unnumbered : list pystr :=
  Eval vm_compute in document plain_formatter scenario.

(** A digit or a blank. *)
Definition digit_or_blank (c : N) : Prop := c = SPACE ∨ 48 ≤ c ≤ 57.

(** A first line number that is given as [-3]. *)
Definition negative_start_options : Options :=
  example_options example_style true (Some (-3)%Z) None.

Definition negative_start_document : list pystr :=
  Eval vm_compute in document (__init__ negative_start_options) open_line.

(** Ten comments that hold their newline. *)
Definition ten_comments : list token :=
  replicate 10 (Comment, lit "c" ++ [NEWLINE]).

Definition ten_comments_document : list pystr :=
  Eval vm_compute in document numbered_formatter ten_comments.

(** ** What the loop writes *)

(** A token type the style knows: the enumeration of the style holds it,
    with the style the lookup gives it. *)
Definition enumerated (sty : Style) (t : _TokenType) : Prop :=
  (t, style_for_token sty t) ∈ style_items sty.

(** The strings the loop writes for its tokens, from the state it is in
    (lines 174-218): for each token the group of the line number when
    line numbers are on and one is owed, and then the styled text. *)
Fixpoint loop_chunks (f : RtfFormatter) (color_mapping : gmap pystr Z)
    (linenos_width : nat) (lineno : Z) (output_lineno : bool)
    (tokens : list token) : list pystr :=
  match tokens with
  | [] => []
  | tok :: rest =>
      (if linenos f && output_lineno
       then [lineno_group f (lineno_str f linenos_width lineno)] else [])
      ++ token_run f color_mapping tok
      ++ loop_chunks f color_mapping linenos_width
           (if linenos f && endswith tok.2 NEWLINE then (lineno + 1)%Z
            else lineno)
           (if linenos f then endswith tok.2 NEWLINE else output_lineno)
           rest
  end.

Definition Literal : _TokenType := ["Literal"]%string.

(** A style that knows the token types of the scenario, or for a doc
    string the type two levels above it. *)
Definition standard_style : Style :=
  {| styles_token t :=
       bool_decide (t ∈ [[]; Text; Keyword; Name; Literal; Comment]);
     style_for_token t :=
       if bool_decide (t = Keyword) then keyword_style
       else if bool_decide (t = Name) then name_style
       else no_style;
     style_items := [([], no_style); (Text, no_style);
                     (Keyword, keyword_style); (Name, name_style);
                     (Literal, no_style); (Comment, no_style)] |}.

Definition standard_formatter : RtfFormatter :=
  __init__ (example_options standard_style true None (Some 5%Z)).

Definition standard_document : list pystr :=
  Eval vm_compute in document standard_formatter scenario.

(** A style that knows the type of plain text and has no colour. *)
Definition colourless_style : Style :=
  {| styles_token t := bool_decide (t ∈ [[]; Text]);
     style_for_token t := no_style;
     style_items := [([], no_style); (Text, no_style)] |}.

Definition colourless_formatter : RtfFormatter :=
  __init__ (example_options colourless_style true None None).

(** The tokens the loop goes through (lines 140-170): those of the first
    pass with line numbers, and the token stream itself without. *)
Definition loop_tokens (f : RtfFormatter) (tokensource : list token)
  : list token :=
  if linenos f then (prepass tokensource).2 else tokensource.

(** * Properties *)

(** ** Strings *)

Lemma digits_chars (d : Decimal.uint) : Forall (λ c, 48 ≤ c ≤ 57) (digits d).
Proof. induction d; simpl; constructor; auto; lia. Qed.

Lemma str_chars (n : Z) : Forall (λ c, 45 ≤ c ≤ 57) (str n).
Proof.
  assert (∀ d, Forall (λ c, 45 ≤ c ≤ 57) (digits d)) as Hd.
  { intros d. eapply Forall_impl; [apply digits_chars|]. simpl. lia. }
  destruct n; simpl; auto.
  - constructor; [lia|constructor].
  - constructor; [lia|auto].
Qed.

Lemma replace_app (old : N) (new a b : pystr) :
  replace old new (a ++ b) = replace old new a ++ replace old new b.
Proof. unfold replace. apply bind_app. Qed.

Lemma replace_cons (old : N) (new s : pystr) (c : N) :
  replace old new (c :: s)
  = (if c =? old then new else [c]) ++ replace old new s.
Proof. reflexivity. Qed.

Lemma replace_absent (old : N) (new s : pystr) :
  old ∉ s → replace old new s = s.
Proof.
  induction s as [|c s IH]; [done|].
  rewrite not_elem_of_cons. intros [Hc Hs].
  rewrite replace_cons, IH by done.
  destruct (N.eqb_spec c old); [congruence|done].
Qed.

Lemma replace_Forall (P : N → Prop) (old : N) (new s : pystr) :
  Forall P new → Forall P s → Forall P (replace old new s).
Proof.
  intros Hnew. induction 1 as [|c s Hc Hs IH]; [constructor|].
  rewrite replace_cons. apply Forall_app. split; [|done].
  destruct (c =? old); [done|by constructor].
Qed.

(** ** The escaper *)

Example escape_text_ex :
  _escape_text (lit "a{b}\" ++ [233; 10; 0x1F600])
  = lit "a\{b\}\\{\u233}\par" ++ [10] ++ lit "{\u55357}{\u56832}".
Proof. vm_compute. reflexivity. Qed.

Lemma _escape_app (a b : pystr) : _escape (a ++ b) = _escape a ++ _escape b.
Proof. unfold _escape. by rewrite !replace_app. Qed.

(** The fast path for the empty string agrees with the general path. *)
Lemma _escape_text_unfold (text : pystr) :
  _escape_text text
  = replace NEWLINE (lit "\par" ++ [NEWLINE])
      (concat (escape_text_char <$> _escape text)).
Proof. by destruct text. Qed.

Lemma _escape_text_app (a b : pystr) :
  _escape_text (a ++ b) = _escape_text a ++ _escape_text b.
Proof.
  rewrite !_escape_text_unfold, _escape_app, fmap_app, concat_app.
  apply replace_app.
Qed.

Lemma _escape_text_cons (c : N) (s : pystr) :
  _escape_text (c :: s) = _escape_text [c] ++ _escape_text s.
Proof. apply (_escape_text_app [c] s). Qed.

(** A character that is not structural is left alone by [_escape]. *)
Lemma _escape_plain (c : N) :
  c ≠ BACKSLASH → c ≠ LBRACE → c ≠ RBRACE → _escape [c] = [c].
Proof.
  intros H1 H2 H3. unfold _escape.
  assert (∀ old new, c ≠ old → replace old new [c] = [c]) as Hone.
  { intros old new Hne. apply replace_absent.
    rewrite list_elem_of_singleton. congruence. }
  by rewrite !Hone.
Qed.

(** A literal of the source has no newline in it. *)
Ltac no_newline H :=
  exfalso; apply list_elem_of_In in H; vm_compute in H;
  intuition discriminate.

(** What one character of the input becomes. *)
Lemma _escape_text_char_cases (c : N) :
  (c = BACKSLASH ∧ _escape_text [c] = lit "\\")
  ∨ (c = LBRACE ∧ _escape_text [c] = lit "\{")
  ∨ (c = RBRACE ∧ _escape_text [c] = lit "\}")
  ∨ (c = NEWLINE ∧ _escape_text [c] = lit "\par" ++ [NEWLINE])
  ∨ (c < 128 ∧ c ≠ BACKSLASH ∧ c ≠ LBRACE ∧ c ≠ RBRACE ∧ c ≠ NEWLINE
     ∧ _escape_text [c] = [c])
  ∨ (128 ≤ c < 65536
     ∧ _escape_text [c] = lit "{\u" ++ str (Z.of_N c) ++ lit "}")
  ∨ (65536 ≤ c
     ∧ _escape_text [c]
       = lit "{\u" ++ str (Z.of_N (surrogatepair c).1) ++ lit "}{\u"
         ++ str (Z.of_N (surrogatepair c).2) ++ lit "}").
Proof.
  destruct (decide (c = BACKSLASH)) as [->|H1]; [by left|].
  destruct (decide (c = LBRACE)) as [->|H2]; [by right; left|].
  destruct (decide (c = RBRACE)) as [->|H3]; [by right; right; left|].
  destruct (decide (c = NEWLINE)) as [->|H4]; [by right; right; right; left|].
  do 4 right.
  assert (∀ n, NEWLINE ∉ str n) as Hstr.
  { intros n Hin. pose proof (str_chars n) as Hf.
    rewrite Forall_forall in Hf. apply Hf in Hin. unfold NEWLINE in Hin. lia. }
  rewrite _escape_text_unfold, _escape_plain by done.
  cbn [fmap list_fmap concat]. rewrite app_nil_r. unfold escape_text_char.
  destruct (N.ltb_spec c (2 ^ 7)) as [Hlt|Hge].
  { left. rewrite replace_absent.
    - repeat split; auto; exact Hlt.
    - rewrite list_elem_of_singleton. congruence. }
  right.
  destruct (N.leb_spec (2 ^ 7) c) as [_|Hbad]; [|lia].
  destruct (N.ltb_spec c (2 ^ 16)) as [Hlt|Hge2]; cbn [andb].
  { left. split; [split; [exact Hge|exact Hlt]|].
    apply replace_absent. rewrite !elem_of_app. intros [Hin|[Hin|Hin]].
    - no_newline Hin.
    - by apply Hstr in Hin.
    - no_newline Hin. }
  right. split; [exact Hge2|].
  destruct (N.leb_spec (2 ^ 16) c) as [_|Hbad]; [|lia].
  destruct (surrogatepair c) as [h l]. cbn [fst snd].
  apply replace_absent. rewrite !elem_of_app.
  intros [Hin|[Hin|[Hin|[Hin|Hin]]]];
    try (by apply Hstr in Hin); no_newline Hin.
Qed.

Lemma surrogatepair_div_mod (c : N) :
  surrogatepair c
  = (0xD800 + (c - 0x10000) / 0x400, 0xDC00 + (c - 0x10000) mod 0x400).
Proof.
  unfold surrogatepair. cbv zeta.
  rewrite N.shiftr_div_pow2.
  change 0x3FF with (N.ones 10). rewrite N.land_ones.
  reflexivity.
Qed.

(** C4: a code point from 65536 on becomes exactly two brace-wrapped
    numeric escape groups, the high surrogate and then the low surrogate
    of the standard UTF-16 decomposition: the two values recombine to the
    code point, the low one lies in the low-surrogate range and the high
    one in the high-surrogate range for every code point of Unicode. *)
Theorem escape_text_surrogate_pair (pre post : pystr) (cn : N) :
  65536 ≤ cn →
  let h := 0xD800 + (cn - 0x10000) / 0x400 in
  let l := 0xDC00 + (cn - 0x10000) mod 0x400 in
  _escape_text (pre ++ cn :: post)
  = _escape_text pre
    ++ (lit "{\u" ++ str (Z.of_N h) ++ lit "}")
    ++ (lit "{\u" ++ str (Z.of_N l) ++ lit "}")
    ++ _escape_text post
  ∧ 0x10000 + (h - 0xD800) * 0x400 + (l - 0xDC00) = cn
  ∧ 0xDC00 ≤ l ≤ 0xDFFF
  ∧ 0xD800 ≤ h
  ∧ (cn ≤ 0x10FFFF → h ≤ 0xDBFF).
Proof.
  intros Hcn h l. split.
  - rewrite _escape_text_app, _escape_text_cons.
    destruct (_escape_text_char_cases cn)
      as [[-> _]|[[-> _]|[[-> _]|[[-> _]|[[Hlt _]|[[[_ Hlt] _]|[_ Heq]]]]]]];
      try (vm_compute in Hcn; congruence); try lia.
    rewrite Heq, surrogatepair_div_mod. cbn [fst snd].
    by rewrite <- !app_assoc.
  - subst h l.
    assert (0x400 ≠ 0) as Hnz by lia.
    pose proof (N.mod_lt (cn - 0x10000) 0x400 Hnz) as Hm.
    pose proof (N.div_mod (cn - 0x10000) 0x400 Hnz) as Hd.
    assert (cn ≤ 0x10FFFF → (cn - 0x10000) / 0x400 < 0x400) as Hq.
    { intros Hmax. apply N.Div0.div_lt_upper_bound; lia. }
    revert Hm Hd Hq.
    generalize ((cn - 0x10000) / 0x400), ((cn - 0x10000) mod 0x400).
    intros q r Hm Hd Hq. lia.
Qed.

Lemma escape_text_surrogate_pair_witness :
  65536 ≤ 0x1F600
  ∧ _escape_text (lit "a" ++ 0x1F600 :: lit "b")
    = lit "a{\u" ++ str 55357 ++ lit "}{\u" ++ str 56832 ++ lit "}b".
Proof.
  assert (65536 ≤ 0x1F600) as Hle by (vm_compute; discriminate).
  split; [exact Hle|].
  destruct (escape_text_surrogate_pair (lit "a") (lit "b") 0x1F600 Hle)
    as [Heq _].
  rewrite Heq. vm_compute. reflexivity.
Defined.

(** ** The round trip *)

Lemma unescape_plain (c : N) (s : pystr) :
  c ≠ BACKSLASH → unescape (c :: s) = c :: unescape s.
Proof.
  intros Hc. destruct s as [|d s]; [done|].
  cbn [unescape]. destruct (N.eqb_spec c BACKSLASH); [congruence|done].
Qed.

Lemma unescape_pair (d : N) (s : pystr) :
  d ∈ [BACKSLASH; LBRACE; RBRACE] →
  unescape (BACKSLASH :: d :: s) = d :: unescape s.
Proof.
  intros Hd. cbn [unescape].
  replace ((d =? BACKSLASH) || (d =? LBRACE) || (d =? RBRACE)) with true;
    [done|].
  symmetry. rewrite !orb_true_iff, !N.eqb_eq.
  rewrite !elem_of_cons, elem_of_nil in Hd. tauto.
Qed.

(** C5: on ASCII printable text, escaping and then mapping each escaped
    pair of a backslash and a structural character back to that character
    gives the text again. *)
Theorem escape_round_trip (text : pystr) :
  Forall printable text → unescape (_escape_text text) = text.
Proof.
  induction 1 as [|c s Hc Hs IH]; [done|].
  rewrite _escape_text_cons. unfold printable in Hc.
  destruct (_escape_text_char_cases c)
    as [[-> Heq]|[[-> Heq]|[[-> Heq]|[[-> _]|[[_ [H1 [_ [_ [_ Heq]]]]]|
        [[[Hge _] _]|[Hge _]]]]]]]; try rewrite Heq.
  - change (lit "\\" ++ _escape_text s)
      with (BACKSLASH :: BACKSLASH :: _escape_text s).
    rewrite unescape_pair, IH; [done|].
    rewrite !elem_of_cons; auto.
  - change (lit "\{" ++ _escape_text s)
      with (BACKSLASH :: LBRACE :: _escape_text s).
    rewrite unescape_pair, IH; [done|].
    rewrite !elem_of_cons; auto.
  - change (lit "\}" ++ _escape_text s)
      with (BACKSLASH :: RBRACE :: _escape_text s).
    rewrite unescape_pair, IH; [done|].
    rewrite !elem_of_cons; auto.
  - unfold NEWLINE in Hc. lia.
  - cbn [app]. by rewrite unescape_plain, IH.
  - lia.
  - lia.
Qed.

Lemma escape_round_trip_witness :
  Forall printable (lit "f(x) = {a\b}")
  ∧ unescape (_escape_text (lit "f(x) = {a\b}")) = lit "f(x) = {a\b}".
Proof.
  assert (Forall printable (lit "f(x) = {a\b}")) as Hp.
  { unfold printable. vm_compute. repeat constructor; discriminate. }
  split; [exact Hp|]. exact (escape_round_trip _ Hp).
Defined.

(** ** The output of the escaper is ASCII *)

Lemma _escape_text_char_ascii (c : N) : Forall (λ c, c < 128) (_escape_text [c]).
Proof.
  assert (∀ n, Forall (λ c, c < 128) (str n)) as Hstr.
  { intros n. eapply Forall_impl; [apply str_chars|]. simpl. lia. }
  destruct (_escape_text_char_cases c)
    as [[_ ->]|[[_ ->]|[[_ ->]|[[_ ->]|[[Hlt [_ [_ [_ [_ ->]]]]]|
        [[_ ->]|[_ ->]]]]]]];
    rewrite ?Forall_app; repeat split; auto;
    try (by repeat constructor).
Qed.

(** C6: the output of the escaper is ASCII: every character of it is
    below 128; a code point in [128, 65536) is replaced by one
    brace-wrapped numeric escape group that names its decimal value; a
    code point below 128 is itself in the output, behind a backslash when
    it is structural and behind the paragraph control word when it is the
    newline, and bare otherwise; the loop over the characters appends
    a code point below 128 as it is. *)
Theorem escape_text_ascii (text : pystr) :
  Forall (λ c, c < 128) (_escape_text text)
  ∧ (∀ pre cn post,
       text = pre ++ cn :: post → 128 ≤ cn < 65536 →
       _escape_text text
       = _escape_text pre ++ (lit "{\u" ++ str (Z.of_N cn) ++ lit "}")
         ++ _escape_text post)
  ∧ (∀ pre cn post,
       text = pre ++ cn :: post → cn < 128 →
       _escape_text text
       = _escape_text pre ++ (escape_prefix cn ++ [cn]) ++ _escape_text post)
  ∧ (∀ cn, cn < 128 → escape_text_char cn = [cn]).
Proof.
  split; [|split; [|split]].
  - induction text as [|c s IH]; [constructor|].
    rewrite _escape_text_cons. apply Forall_app.
    split; [apply _escape_text_char_ascii|exact IH].
  - intros pre cn post -> Hcn.
    rewrite _escape_text_app, _escape_text_cons.
    destruct (_escape_text_char_cases cn)
      as [[-> _]|[[-> _]|[[-> _]|[[-> _]|[[Hlt _]|[[_ ->]|[Hge _]]]]]]];
      try done; try (vm_compute in Hcn; intuition congruence); lia.
  - intros pre cn post -> Hcn.
    rewrite _escape_text_app, _escape_text_cons. do 2 f_equal.
    destruct (_escape_text_char_cases cn)
      as [[-> ->]|[[-> ->]|[[-> ->]|[[-> ->]|[[_ [H1 [H2 [H3 [H4 ->]]]]]|
          [[[Hge _] _]|[Hge _]]]]]]]; try done; try lia.
    unfold escape_prefix.
    rewrite bool_decide_eq_false_2, bool_decide_eq_false_2; [done|done|].
    rewrite !elem_of_cons, elem_of_nil. tauto.
  - intros cn Hcn. unfold escape_text_char.
    by destruct (N.ltb_spec cn (2 ^ 7)); [|lia].
Qed.

(** ** The style prefix *)

Lemma getitem_total (cm : gmap pystr Z) (c : pystr) (i : Z) :
  cm !! c = Some i → getitem cm c = Ok (cm !!! c).
Proof.
  intros Hc. unfold getitem. rewrite lookup_total_alt, Hc. reflexivity.
Qed.

Lemma getitem_missing (cm : gmap pystr Z) (c : pystr) :
  cm !! c = None → getitem cm c = Raise KeyError.
Proof. intros Hc. unfold getitem. by rewrite Hc. Qed.

Ltac color_case cm c :=
  let H := fresh "Hc" in
  destruct (cm !! c) eqn:H;
  [rewrite (getitem_total _ _ _ H)|rewrite (getitem_missing _ _ H)].

(** The prefix the loop builds is the one of the specification, and the
    only way it fails is a colour that is not in the mapping. *)
Lemma style_start_spec (cm : gmap pystr Z) (sd : StyleDict) :
  style_start cm sd
  = if bool_decide (Forall (λ c, is_Some (cm !! c)) (colors_of sd))
    then Ok (style_prefix cm sd) else Raise KeyError.
Proof.
  destruct sd as [fg bg bd b i u].
  unfold style_start, style_prefix, control_words, colors_of.
  cbn -[lit str lookup_total getitem bool_decide].
  destruct (bool_decide (bg ≠ [])); [color_case cm bg|];
  (destruct (bool_decide (fg ≠ [])); [color_case cm fg|]);
  (destruct (bool_decide (bd ≠ [])); [color_case cm bd|]);
  destruct b, i, u;
  cbn -[lit str lookup_total bool_decide];
  case_bool_decide as HF; try reflexivity; exfalso;
  first [ apply HF; repeat constructor; eauto
        | rewrite ?Forall_cons in HF; destruct_and?;
          by repeat match goal with
                    | H : cm !! ?c = None, H' : is_Some (cm !! ?c) |- _ =>
                        rewrite H in H'; apply is_Some_None in H'
                    end ].
Qed.

(** ** One token of the highlighting loop *)

(** The walk, by the parent links and their truth value. *)
Lemma resolve_unfold (sty : Style) (ttype : _TokenType) :
  resolve sty ttype
  = if negb (styles_token sty ttype) && has_parent ttype
    then match parent ttype with
         | Some p => resolve sty p
         | None => ttype
         end
    else ttype.
Proof.
  destruct ttype as [|name [|name' p]]; cbn;
    by destruct (styles_token sty _).
Qed.

(** The body of the loop as one equation: the only failures are a zero
    step when a slot is due, and then a colour that is not in the
    mapping. *)
Lemma render_token_eq (f : RtfFormatter) (cm : gmap pystr Z) (w : nat)
    (l : Z) (o : bool) (out : list pystr) (t : _TokenType) (v : pystr) :
  render_token f cm w (l, o, out) (t, v)
  = if linenos f && o && (linenostep f =? 0)%Z then Raise ZeroDivisionError
    else
      start ← style_start cm (style_for_token (style f) (resolve (style f) t));
      mret (if linenos f && endswith v NEWLINE then (l + 1)%Z else l,
            if linenos f then endswith v NEWLINE else o,
            out ++ (if linenos f && o then [lineno_group f (lineno_str f w l)]
                    else [])
                ++ styled_run start (_escape_text v)).
Proof.
  unfold render_token, pymod, lineno_str, styled_run.
  destruct (linenos f), o, (linenostep f =? 0)%Z, (endswith v NEWLINE);
    cbn -[lit str _escape_text style_start bool_decide Z.modulo Z.sub];
    try reflexivity;
    destruct (style_start cm _) as [start|e];
    cbn -[lit str _escape_text bool_decide Z.modulo Z.sub];
    try reflexivity;
    destruct (bool_decide (start ≠ []));
    cbn -[lit str _escape_text Z.modulo Z.sub];
    by rewrite <- ?app_assoc, ?app_nil_r.
Qed.

(** ** Which strings are slots *)

Lemma is_slot_lineno_group (f : RtfFormatter) (s : pystr) :
  is_slot (lineno_group f s) = true.
Proof. unfold is_slot, lineno_group. by vm_compute. Qed.

Lemma is_slot_escape_text (v : pystr) : is_slot (_escape_text v) = false.
Proof.
  destruct v as [|c v]; [done|].
  rewrite _escape_text_cons.
  destruct (_escape_text_char_cases c)
    as [[_ ->]|[[_ ->]|[[_ ->]|[[_ ->]|[[_ [_ [H2 [_ [_ ->]]]]]|
        [[_ ->]|[_ ->]]]]]]]; try reflexivity.
  unfold is_slot. change (lit "{\fs") with [LBRACE; 92; 102; 115].
  cbn [app startswith].
  destruct (N.eqb_spec LBRACE c) as [<-|_]; [by destruct H2|done].
Qed.

Lemma is_slot_style_prefix (cm : gmap pystr Z) (sd : StyleDict) :
  is_slot (lit "{" ++ style_prefix cm sd ++ lit " ") = false.
Proof.
  destruct sd as [fg bg bd b i u].
  unfold style_prefix, control_words.
  cbn -[lit str lookup_total bool_decide].
  destruct (bool_decide (bg ≠ [])), (bool_decide (fg ≠ [])),
    (bool_decide (bd ≠ [])), b, i, u; reflexivity.
Qed.

Lemma slots_app (a b : list pystr) : slots (a ++ b) = slots a ++ slots b.
Proof. apply filter_app. Qed.

Lemma slots_styled_run (cm : gmap pystr Z) (sd : StyleDict) (v : pystr) :
  slots (styled_run (style_prefix cm sd) (_escape_text v)) = [].
Proof.
  unfold styled_run, slots.
  destruct (bool_decide _);
    rewrite ?filter_cons, ?filter_nil, ?is_slot_style_prefix,
      ?is_slot_escape_text;
    repeat case_decide; done.
Qed.

(** The slots the loop writes are those of [line_starts], in order. *)
Lemma render_loop_slots (f : RtfFormatter) (cm : gmap pystr Z) (w : nat)
    (tokens : list token) :
  linenos f = true →
  ∀ l o out l' o' out',
    for_each (render_token f cm w) tokens (l, o, out) = Ok (l', o', out') →
    slots out'
    = slots out
      ++ ((λ n, lineno_group f (lineno_str f w n)) <$> line_starts l o tokens).
Proof.
  intros Hln. induction tokens as [|[t v] tokens IH]; intros l o out l' o' out'.
  - cbn. intros [= <- <- <-]. by rewrite app_nil_r.
  - cbn [for_each line_starts snd]. rewrite render_token_eq, Hln.
    cbn [andb].
    destruct (o && (linenostep f =? 0)%Z); [done|].
    rewrite style_start_spec. case_bool_decide; [|done].
    cbn [mbind result_bind mret result_ret].
    intros Hloop. apply IH in Hloop. rewrite Hloop.
    rewrite !slots_app, slots_styled_run, app_nil_r, fmap_app, <- app_assoc.
    f_equal. destruct o, (endswith v NEWLINE); cbn -[lineno_group]; try done.
Qed.

(** ** The line numbers of the slots *)

(** The slots are numbered consecutively. *)
Lemma line_starts_lookup (tokens : list token) :
  ∀ (l : Z) (o : bool) (i : nat) (n : Z),
    line_starts l o tokens !! i = Some n →
    n = (l + (if o then 0 else 1) + Z.of_nat i)%Z.
Proof.
  induction tokens as [|tok tokens IH]; intros l o i n; [done|].
  cbn [line_starts].
  destruct o, (endswith tok.2 NEWLINE); cbn [app];
    try (destruct i as [|i]; cbn [lookup list_lookup];
         [intros [= <-]; lia|]);
    intros Hi; apply IH in Hi; lia.
Qed.

Lemma pending_cons (o : bool) (tok : token) (tokens : list token) :
  pending o (tok :: tokens) = pending (endswith tok.2 NEWLINE) tokens.
Proof. unfold pending. rewrite last_cons. by destruct (last tokens). Qed.

Lemma newline_ended_cons (tok : token) (tokens : list token) :
  newline_ended (tok :: tokens)
  = if endswith tok.2 NEWLINE then tok :: newline_ended tokens
    else newline_ended tokens.
Proof.
  unfold newline_ended. rewrite filter_cons.
  destruct (endswith tok.2 NEWLINE); by case_decide.
Qed.

(** One slot per token that ends in a newline, but for the ends: the
    first token has a slot when one is owed at the start, and the newline
    of the last token has no slot after it. *)
Lemma line_starts_length (tokens : list token) :
  ∀ (l : Z) (o : bool),
    (length (line_starts l o tokens) + (if pending o tokens then 1 else 0)
     = (if o then 1 else 0) + length (newline_ended tokens))%nat.
Proof.
  induction tokens as [|tok tokens IH]; intros l o.
  - cbn. by destruct o.
  - rewrite pending_cons, newline_ended_cons. cbn [line_starts].
    rewrite length_app.
    destruct (endswith tok.2 NEWLINE) eqn:He.
    + specialize (IH (l + 1)%Z true).
      destruct o, (pending _ tokens); cbn [length] in *; lia.
    + specialize (IH l false).
      destruct o, (pending _ tokens); cbn [length] in *; lia.
Qed.

(** ** The first pass *)

Lemma prepass_token_spec (n : Z) (acc : list token) (tok : token) :
  prepass_token (n, acc) tok = ((n + boundaries tok)%Z, acc ++ fragments tok).
Proof.
  destruct tok as [t v]. unfold prepass_token, boundaries, fragments.
  cbn [fst snd]. case_bool_decide as Ht.
  - generalize (split NEWLINE v). intros lines. revert n acc.
    induction lines as [|line lines IH]; intros n acc.
    + cbn. by rewrite Z.add_0_r, app_nil_r.
    + cbn [foldl]. rewrite IH. cbn [length fmap list_fmap].
      f_equal; [lia|]. by rewrite <- app_assoc.
  - case_bool_decide; [done|]. by rewrite Z.add_0_r.
Qed.

Lemma prepass_spec (tokensource : list token) :
  prepass tokensource
  = (foldr (λ tok n, (boundaries tok + n)%Z) 0%Z tokensource,
     tokensource ≫= fragments).
Proof.
  unfold prepass.
  assert (∀ n acc,
    foldl prepass_token (n, acc) tokensource
    = ((n + foldr (λ tok n, (boundaries tok + n)%Z) 0%Z tokensource)%Z,
       acc ++ (tokensource ≫= fragments))) as Hgen.
  { induction tokensource as [|tok toks IH]; intros n acc.
    - cbn. by rewrite Z.add_0_r, app_nil_r.
    - cbn [foldl foldr]. rewrite prepass_token_spec, IH.
      f_equal; [lia|]. by rewrite <- app_assoc. }
  apply Hgen.
Qed.

Lemma split_nonempty (sep : N) (s : pystr) : split sep s ≠ [].
Proof.
  destruct s as [|c s]; [done|]. cbn [split].
  destruct (c =? sep); [done|]. by destruct (split sep s).
Qed.

Lemma split_join (sep : N) (s : pystr) :
  concat ((λ line, line ++ [sep]) <$> split sep s) = s ++ [sep].
Proof.
  induction s as [|c s IH]; [done|]. cbn [split].
  destruct (N.eqb_spec c sep) as [->|Hc].
  - cbn [fmap list_fmap concat]. cbn [fmap] in IH. by rewrite IH.
  - destruct (split sep s) as [|p ps]; [by destruct s|].
    cbn [fmap list_fmap concat app] in *. by rewrite <- IH.
Qed.

Lemma split_absent (sep : N) (s : pystr) : sep ∉ s → split sep s = [s].
Proof.
  induction s as [|c s IH]; [done|].
  rewrite not_elem_of_cons. intros [Hc Hs]. cbn [split].
  destruct (N.eqb_spec c sep); [congruence|]. by rewrite IH.
Qed.

Lemma endswith_snoc (s : pystr) (c : N) : endswith (s ++ [c]) c = true.
Proof. unfold endswith. rewrite last_snoc. apply N.eqb_refl. Qed.

(** ** The colour table *)

Lemma for_each_app {A S : Type} (body : S → A → result S) (l1 l2 : list A)
    (s : S) :
  for_each body (l1 ++ l2) s = s' ← for_each body l1 s; for_each body l2 s'.
Proof.
  revert s. induction l1 as [|a l1 IH]; intros s; [done|].
  cbn [app for_each]. destruct (body s a) as [s'|e]; [apply IH|done].
Qed.

Lemma first_occurrences_app (seen l1 l2 : list pystr) :
  first_occurrences seen (l1 ++ l2)
  = first_occurrences seen l1
    ++ first_occurrences (seen ++ first_occurrences seen l1) l2.
Proof.
  revert seen. induction l1 as [|c l1 IH]; intros seen.
  - cbn. by rewrite app_nil_r.
  - cbn [app first_occurrences]. case_bool_decide.
    + apply IH.
    + cbn [app]. rewrite IH. by rewrite <- app_assoc.
Qed.

Lemma first_occurrences_complete (seen l : list pystr) (c : pystr) :
  c ∈ l → c ∈ seen ∨ c ∈ first_occurrences seen l.
Proof.
  revert seen. induction l as [|d l IH]; intros seen.
  - by rewrite elem_of_nil.
  - rewrite elem_of_cons. cbn [first_occurrences].
    intros [->|Hin]; case_bool_decide as Hd.
    + by left.
    + right. by left.
    + by apply IH.
    + destruct (IH (seen ++ [d]) Hin) as [Hs|Hf].
      * apply elem_of_app in Hs as [Hs|Hs]; [by left|].
        apply list_elem_of_singleton in Hs as ->. right. by left.
      * right. by right.
Qed.

Section color_table.

Variable int16 : pystr → option Z.

(** The strings of the colour table are no slots, and the only exception
    of the table is the [ValueError] of [int]. *)
Lemma color_entry_inv (c : pystr) :
  (∃ e, color_entry int16 c = Ok e ∧ is_slot e = false)
  ∨ color_entry int16 c = Raise ValueError.
Proof.
  unfold color_entry, int_16.
  destruct (int16 (slice 0 2 c)); [|by right].
  destruct (int16 (slice 2 4 c)); [|by right].
  destruct (int16 (slice 4 6 c)); [|by right].
  left. eexists. split; [reflexivity|]. by vm_compute.
Qed.

Lemma table_of_empty : table_of [] ∅ 1.
Proof.
  split; [done|]. intros c i. rewrite lookup_empty. split; [done|].
  by intros (k & Hk & _).
Qed.

Lemma table_of_fresh (ds : list pystr) (m : gmap pystr Z) (off : Z)
    (c : pystr) :
  table_of ds m off → (m !! c = None ↔ c ∉ ds).
Proof.
  intros [_ Hm]. split.
  - intros Hc Hin. apply list_elem_of_lookup in Hin as [k Hk].
    assert (m !! c = Some (Z.of_nat k + 1)%Z) as Hs by (apply Hm; eauto).
    congruence.
  - intros Hnin. destruct (m !! c) as [i|] eqn:Hc; [|done].
    apply Hm in Hc as (k & Hk & _). destruct Hnin.
    apply list_elem_of_lookup. eauto.
Qed.

Lemma table_of_insert (ds : list pystr) (m : gmap pystr Z) (off : Z)
    (c : pystr) :
  table_of ds m off → c ∉ ds →
  table_of (ds ++ [c]) (<[c:=off]> m) (off + 1).
Proof.
  intros [Hoff Hm] Hnin. split.
  - rewrite length_app. cbn [length]. lia.
  - intros d i. destruct (decide (c = d)) as [<-|Hne].
    + rewrite lookup_insert_eq. split.
      * intros [= <-]. exists (length ds). split; [|lia].
        by rewrite lookup_app_r, Nat.sub_diag.
      * intros (k & Hk & ->). f_equal.
        destruct (decide (k < length ds)%nat) as [Hlt|Hge].
        -- rewrite lookup_app_l in Hk by done. destruct Hnin.
           apply list_elem_of_lookup. eauto.
        -- apply lookup_lt_Some in Hk. rewrite length_app in Hk.
           cbn [length] in Hk. lia.
    + rewrite lookup_insert_ne by done. rewrite Hm. split.
      * intros (k & Hk & ->). exists k. split; [|done].
        by apply lookup_app_l_Some.
      * intros (k & Hk & ->). exists k. split; [|done].
        apply lookup_app_Some in Hk as [Hk|[_ Hk]]; [done|].
        destruct (k - length ds)%nat; [|done].
        cbn in Hk. congruence.
Qed.

(** The inner loop over a list of colours, some of them unset. *)
Lemma color_steps_spec (cs : list pystr) :
  ∀ ds m off out m' off' out',
    table_of ds m off →
    for_each (color_step int16) cs (m, off, out) = Ok (m', off', out') →
    let new :=
      first_occurrences ds (c ← cs; if bool_decide (c ≠ []) then [c] else []) in
    table_of (ds ++ new) m' off'
    ∧ ∃ entries, out' = out ++ entries
        ∧ Forall2 (λ c e, color_entry int16 c = Ok e ∧ is_slot e = false)
            new entries.
Proof.
  induction cs as [|c cs IH]; intros ds m off out m' off' out' Hinv.
  - cbn. intros [= <- <- <-]. rewrite !app_nil_r.
    split; [done|]. exists []. by rewrite app_nil_r.
  - cbn [for_each color_step mbind list_bind].
    pose proof (table_of_fresh _ _ _ c Hinv) as Hfresh.
    destruct (bool_decide (c ≠ [])); cbn [andb app].
    + case_bool_decide as Hc.
      * cbn [first_occurrences].
        rewrite bool_decide_eq_false_2 by (by apply Hfresh).
        destruct (color_entry_inv c) as [(e & He & Hslot)|He]; rewrite He;
          [|done].
        cbn [mbind result_bind mret result_ret]. intros Hloop.
        apply IH with (ds := ds ++ [c]) in Hloop;
          [|apply table_of_insert; [done|by apply Hfresh]].
        destruct Hloop as [Hinv' [entries [-> Hent]]].
        rewrite <- !app_assoc in *. split; [done|].
        exists (e :: entries). split; [done|]. by constructor.
      * cbn [first_occurrences].
        rewrite bool_decide_eq_true_2; [by apply IH|].
        destruct (decide (c ∈ ds)) as [|Hn]; [done|].
        by apply Hfresh in Hn.
    + by apply IH.
Qed.

Lemma color_steps_raise (cs : list pystr) :
  ∀ st e, for_each (color_step int16) cs st = Raise e → e = ValueError.
Proof.
  induction cs as [|c cs IH]; intros [[m off] out] e; [done|].
  cbn [for_each color_step].
  destruct (_ && _).
  - destruct (color_entry_inv c) as [[x [-> _]]| ->].
    + apply IH.
    + by intros [= <-].
  - apply IH.
Qed.

Lemma for_each_nested {A B S : Type} (body : S → B → result S)
    (g : A → list B) (l : list A) (s : S) :
  for_each (λ s a, for_each body (g a) s) l s = for_each body (l ≫= g) s.
Proof.
  revert s. induction l as [|a l IH]; intros s; [done|].
  cbn [for_each]. rewrite bind_cons, for_each_app.
  destruct (for_each body (g a) s) as [s'|e]; [apply IH|done].
Qed.

Lemma scanned_colors_flat (sty : Style) :
  scanned_colors sty
  = c ← (item ← style_items sty;
         [color item.2; bgcolor item.2; border item.2]);
    if bool_decide (c ≠ []) then [c] else [].
Proof.
  unfold scanned_colors. induction (style_items sty) as [|item l IH]; [done|].
  rewrite !bind_cons, bind_app, IH. reflexivity.
Qed.

Lemma first_occurrences_NoDup (l : list pystr) :
  ∀ seen, NoDup (first_occurrences seen l)
          ∧ ∀ c, c ∈ first_occurrences seen l → c ∉ seen.
Proof.
  induction l as [|d l IH]; intros seen.
  - split; [constructor|]. intros c. by rewrite elem_of_nil.
  - cbn [first_occurrences]. case_bool_decide as Hd; [apply IH|].
    destruct (IH (seen ++ [d])) as [Hnd Hnin]. split.
    + constructor; [|done]. intros Hin. apply Hnin in Hin.
      apply Hin, elem_of_app. right. by left.
    + intros c. rewrite elem_of_cons. intros [->|Hin]; [done|].
      apply Hnin in Hin. intros Hs. apply Hin, elem_of_app. by left.
Qed.

Lemma first_occurrences_sound (l : list pystr) :
  ∀ seen c, c ∈ first_occurrences seen l → c ∈ l.
Proof.
  induction l as [|d l IH]; intros seen c; [done|].
  cbn [first_occurrences]. case_bool_decide.
  - intros Hin. right. by eapply IH.
  - rewrite elem_of_cons. intros [->|Hin]; [by left|]. right. by eapply IH.
Qed.

(** The table of a style, in the terms of the specification. *)
Lemma color_table_spec (sty : Style) (out0 : list pystr)
    (m : gmap pystr Z) (off : Z) (out : list pystr) :
  color_table int16 sty out0 = Ok (m, off, out) →
  let ds := first_occurrences [] (scanned_colors sty) in
  table_of ds m off
  ∧ ∃ entries, out = out0 ++ entries
      ∧ Forall2 (λ c e, color_entry int16 c = Ok e ∧ is_slot e = false)
          ds entries.
Proof.
  unfold color_table.
  rewrite (for_each_nested (color_step int16)
             (λ item, [color item.2; bgcolor item.2; border item.2])).
  intros Hloop. apply color_steps_spec with (ds := []) in Hloop;
    [|apply table_of_empty].
  rewrite <- scanned_colors_flat in Hloop. exact Hloop.
Qed.

(** C7: the colour table builder scans the categories in the order of
    the style, the foreground, background and border colour of each, and
    skips the unset ones; the distinct colours in the order of their
    first occurrence get the indices 1, 2, ... (a colour that occurs again
    keeps its index, and no other colour has one), and the entries are
    written in that order, after what the file held. *)
Theorem color_table_first_occurrence (sty : Style) (out0 : list pystr)
    (m : gmap pystr Z) (off : Z) (out : list pystr) :
  color_table int16 sty out0 = Ok (m, off, out) →
  let ds := first_occurrences [] (scanned_colors sty) in
  NoDup ds
  ∧ (∀ c, c ∈ ds ↔ c ∈ scanned_colors sty)
  ∧ (∀ c i, m !! c = Some i
            ↔ ∃ k : nat, ds !! k = Some c ∧ i = (Z.of_nat k + 1)%Z)
  ∧ off = (Z.of_nat (length ds) + 1)%Z
  ∧ ∃ entries, out = out0 ++ entries
      ∧ length entries = length ds
      ∧ ∀ (k : nat) c, ds !! k = Some c →
          ∃ e, entries !! k = Some e ∧ color_entry int16 c = Ok e.
Proof.
  intros Hc ds. apply color_table_spec in Hc as [[Hoff Hm] Hout].
  destruct Hout as (entries & -> & Hent). fold ds in Hoff, Hm, Hent.
  split; [apply first_occurrences_NoDup|].
  split.
  { intros c. split; [apply first_occurrences_sound|].
    intros Hin. apply (first_occurrences_complete []) in Hin as [Hin|Hin];
      [by apply elem_of_nil in Hin|done]. }
  split; [exact Hm|]. split; [exact Hoff|].
  exists entries. split; [done|].
  split; [symmetry; by eapply Forall2_length|].
  intros k c Hk.
  destruct (Forall2_lookup_l _ _ _ _ _ Hent Hk) as (e & He & Hce & _).
  eauto.
Qed.

End color_table.

Lemma color_table_first_occurrence_witness :
  color_table hex_int example_style []
  = Ok (<[lit "0000FF" := 2%Z]> (<[lit "FF0000" := 1%Z]> ∅), 3%Z,
        [lit "\red255\green0\blue0;"; lit "\red0\green0\blue255;"])
  ∧ NoDup (first_occurrences [] (scanned_colors example_style)).
Proof.
  assert (color_table hex_int example_style []
          = Ok (<[lit "0000FF" := 2%Z]> (<[lit "FF0000" := 1%Z]> ∅), 3%Z,
                [lit "\red255\green0\blue0;"; lit "\red0\green0\blue255;"]))
    as Hrun by (vm_compute; reflexivity).
  split; [exact Hrun|].
  exact (proj1 (color_table_first_occurrence hex_int _ _ _ _ _ Hrun)).
Defined.

(** ** The whole document *)

Section rendering.

Variable int16 : pystr → option Z.

Lemma slots_entries (ds entries : list pystr) :
  Forall2 (λ c e, color_entry int16 c = Ok e ∧ is_slot e = false) ds entries →
  slots entries = [].
Proof.
  induction 1 as [|c e ds entries [_ He] _ IH]; [done|].
  unfold slots in *. rewrite filter_cons, decide_False; [done|].
  by rewrite He.
Qed.

Lemma is_slot_header (f : RtfFormatter) : is_slot (header f) = false.
Proof. unfold is_slot, header. by vm_compute. Qed.

(** What a run of the formatter that returns went through: the colour
    table, and then the loop over the tokens. *)
Lemma format_unencoded_inv (f : RtfFormatter) (tokensource : list token)
    (out : list pystr) :
  format_unencoded int16 f tokensource = Ok out →
  ∃ m off entries l o body,
    color_table int16 (style f) [header f] = Ok (m, off, header f :: entries)
    ∧ slots (header f :: entries) = []
    ∧ let pre :=
        (header f :: entries) ++ [lit "}\f0 "]
        ++ (if bool_decide (fontsize f ≠ 0%Z)
            then [lit "\fs" ++ str (fontsize f)] else []) in
      slots pre = []
      ∧ out = body ++ [lit "}"]
      ∧ if linenos f then
          for_each
            (render_token f m (length (str (prepass tokensource).1)))
            (prepass tokensource).2 (linenostart f, true, pre)
          = Ok (l, o, body)
        else
          for_each (render_token f m 0) tokensource (0%Z, false, pre)
          = Ok (l, o, body).
Proof.
  unfold format_unencoded.
  destruct (color_table int16 (style f) [header f]) as [[[m off] out1]|e]
    eqn:Hct; [|done].
  cbn [mbind result_bind].
  pose proof (color_table_spec _ _ _ _ _ _ Hct) as [_ (entries & -> & Hent)].
  assert (slots (header f :: entries) = []) as Hs1.
  { unfold slots. rewrite filter_cons, decide_False
      by (by rewrite is_slot_header).
    by eapply slots_entries. }
  change ([header f] ++ entries) with (header f :: entries) in *.
  set (pre := (header f :: entries) ++ [lit "}\f0 "]).
  assert (slots
            (if bool_decide (fontsize f ≠ 0%Z)
             then pre ++ [lit "\fs" ++ str (fontsize f)] else pre) = [])
    as Hs2.
  { subst pre. destruct (bool_decide _); rewrite !slots_app, Hs1;
      by vm_compute. }
  assert ((if bool_decide (fontsize f ≠ 0%Z)
           then pre ++ [lit "\fs" ++ str (fontsize f)] else pre)
          = (header f :: entries) ++ [lit "}\f0 "]
            ++ (if bool_decide (fontsize f ≠ 0%Z)
                then [lit "\fs" ++ str (fontsize f)] else [])) as Hpre.
  { subst pre. destruct (bool_decide _);
      by rewrite <- ?app_assoc, ?app_nil_r. }
  rewrite Hpre in *. clearbody pre.
  destruct (linenos f).
  - destruct (prepass tokensource) as [num_of_lines tokens]. cbn [fst snd].
    destruct (for_each _ tokens _) as [[[l o] body]|e] eqn:Hloop; [|done].
    cbn [mbind result_bind mret result_ret]. intros [= <-].
    by exists m, off, entries, l, o, body.
  - destruct (for_each _ tokensource _) as [[[l o] body]|e] eqn:Hloop;
      [|done].
    cbn [mbind result_bind mret result_ret]. intros [= <-].
    by exists m, off, entries, l, o, body.
Qed.

(** With line numbers, the slots of the document are those of
    [line_starts] over the tokens of the first pass. *)
Lemma format_unencoded_slots (f : RtfFormatter) (tokensource : list token)
    (out : list pystr) :
  linenos f = true →
  format_unencoded int16 f tokensource = Ok out →
  slots out
  = (λ n, lineno_group f
            (lineno_str f (length (str (prepass tokensource).1)) n))
    <$> line_starts (linenostart f) true (prepass tokensource).2.
Proof.
  intros Hln Hrun.
  apply format_unencoded_inv in Hrun
    as (m & off & entries & l & o & body & _ & _ & Hpre & -> & Hloop).
  rewrite Hln in Hloop. apply render_loop_slots in Hloop; [|done].
  rewrite slots_app, Hloop, Hpre, app_nil_l.
  replace (slots [lit "}"]) with (@nil pystr) by (by vm_compute).
  by rewrite app_nil_r.
Qed.

(** *** The step of the line numbers *)



(** *** The number of slots *)

End rendering.



Lemma newline_ended_fragments (tok : token) :
  (boundaries tok ≤ Z.of_nat (length (newline_ended (fragments tok))))%Z.
Proof.
  unfold fragments, boundaries. case_bool_decide as Ht.
  - apply Nat2Z.inj_le.
    induction (split NEWLINE tok.2) as [|line lines IH]; [done|].
    cbn [fmap list_fmap]. rewrite newline_ended_cons. cbn [snd].
    rewrite endswith_snoc. cbn [length]. lia.
  - case_bool_decide as Hv; [|lia].
    rewrite newline_ended_cons, Hv. by vm_compute.
Qed.

Lemma newline_ended_prepass (tokensource : list token) :
  ((prepass tokensource).1
   ≤ Z.of_nat (length (newline_ended (prepass tokensource).2)))%Z.
Proof.
  rewrite prepass_spec. cbn [fst snd].
  induction tokensource as [|tok toks IH]; [done|].
  assert (newline_ended (fragments tok ++ (toks ≫= fragments))
          = newline_ended (fragments tok)
            ++ newline_ended (toks ≫= fragments)) as Happ
    by apply filter_app.
  rewrite bind_cons, Happ, length_app, Nat2Z.inj_add. cbn [foldr].
  pose proof (newline_ended_fragments tok) as Htok. lia.
Qed.

(** C2, which the code breaks: the first pass is there to obtain the
    total number of lines, but it counts a token that is no doc string
    only when its text is the newline alone, while the loop starts a new
    line after every token that ends in a newline.  A comment that holds
    its newline, followed by a newline, gives two line-number slots and a
    count of one; ten comments that hold their newline give ten slots and
    a count of zero, hence a column width of one, which the numeral of
    line 10 overruns.  The count is never more than the number of
    slots. *)
Theorem prepass_undercounts_lines :
  format_unencoded hex_int numbered_formatter comment_line
  = Ok comment_document
  ∧ slots comment_document = [lit "{\fs18 \cf1 1  }"; lit "{\fs18 \cf1 2  }"]
  ∧ (prepass comment_line).1 = 1%Z
  ∧ Z.of_nat (length (slots comment_document)) ≠ (prepass comment_line).1
  ∧ format_unencoded hex_int numbered_formatter ten_comments
    = Ok ten_comments_document
  ∧ length (slots ten_comments_document) = 10%nat
  ∧ (prepass ten_comments).1 = 0%Z
  ∧ slots ten_comments_document !! 8%nat = Some (lit "{\fs18 \cf1 9  }")
  ∧ slots ten_comments_document !! 9%nat = Some (lit "{\fs18 \cf1 10  }")
  ∧ ∀ (int16 : pystr → option Z) (f : RtfFormatter)
      (tokensource : list token) (out : list pystr),
      linenos f = true →
      format_unencoded int16 f tokensource = Ok out →
      ((prepass tokensource).1 ≤ Z.of_nat (length (slots out)))%Z.
Proof.
  do 9 (split; [by vm_compute|]).
  intros int16 f tokensource out Hln Hrun.
  rewrite (format_unencoded_slots _ _ _ _ Hln Hrun), length_fmap.
  pose proof (line_starts_length (prepass tokensource).2 (linenostart f) true)
    as Hlen.
  pose proof (newline_ended_prepass tokensource) as Hle.
  destruct (pending true _); lia.
Qed.

(** ** Doc strings in the first pass *)

(** C3, which the code breaks: a doc string token is split at its
    newlines and every fragment, the last one too, gets a newline
    appended, so the fragments of a doc string hold one newline more than
    the token, and a doc string without a newline is not left as it is.
    The document shows it: the doc string ["a"] is written as it is
    without line numbers, and with a paragraph break behind it with
    them. *)
Theorem prepass_doc_appends_newline :
  (prepass [(Doc, lit "a" ++ [NEWLINE] ++ lit "b")]).2
  = [(Doc, lit "a" ++ [NEWLINE]); (Doc, lit "b" ++ [NEWLINE])]
  ∧ (prepass [(Doc, lit "a")]).2 = [(Doc, lit "a" ++ [NEWLINE])]
  ∧ format_unencoded hex_int plain_formatter [(Doc, lit "a")]
    = Ok [ header plain_formatter; lit "\red255\green0\blue0;";
           lit "\red0\green0\blue255;"; lit "}\f0 "; lit "a"; lit "}" ]
  ∧ format_unencoded hex_int numbered_formatter [(Doc, lit "a")]
    = Ok [ header numbered_formatter; lit "\red255\green0\blue0;";
           lit "\red0\green0\blue255;"; lit "}\f0 ";
           lit "{\fs18 \cf1 1  }"; lit "a\par" ++ [NEWLINE]; lit "}" ]
  ∧ ∀ value : pystr,
      let tokens := (prepass [(Doc, value)]).2 in
      concat (snd <$> tokens) = value ++ [NEWLINE]
      ∧ concat (snd <$> tokens) ≠ value.
Proof.
  split; [by vm_compute|]. split; [by vm_compute|].
  split; [by vm_compute|]. split; [by vm_compute|].
  intros value tokens.
  assert (concat (snd <$> tokens) = value ++ [NEWLINE]) as Heq.
  { subst tokens. rewrite prepass_spec. cbn [fst snd].
    rewrite bind_singleton. unfold fragments. cbn [fst snd].
    rewrite bool_decide_eq_true_2 by done.
    rewrite <- list_fmap_compose. apply split_join. }
  split; [exact Heq|]. rewrite Heq. intros Hbad.
  apply (f_equal length) in Hbad. rewrite length_app in Hbad.
  cbn [length] in Hbad. lia.
Qed.

(** ** The style prefix of a token *)

Lemma style_prefix_nil (cm : gmap pystr Z) (sd : StyleDict) :
  style_prefix cm sd = []
  ↔ bgcolor sd = [] ∧ color sd = [] ∧ bold sd = false ∧ italic sd = false
    ∧ underline sd = false ∧ border sd = [].
Proof.
  destruct sd as [fg bg bd b i u].
  unfold style_prefix, control_words.
  cbn -[lit str lookup_total bool_decide].
  destruct (decide (bg = [])) as [->|Hbg];
    [|rewrite (bool_decide_eq_true_2 _ Hbg); by split; [|intros [? _]]].
  destruct (decide (fg = [])) as [->|Hfg];
    [|rewrite (bool_decide_eq_true_2 _ Hfg); by split; [|intros (_ & ? & _)]].
  destruct (decide (bd = [])) as [->|Hbd];
    [|rewrite (bool_decide_eq_true_2 _ Hbd);
      destruct b, i, u; by split; [|intros (_ & _ & _ & _ & _ & ?)]].
  destruct b, i, u; cbn; split; try done; intros (_ & _ & ? & ? & ? & _);
    done.
Qed.

(** C8: for a token the loop writes, after the slot when one is due,
    the escaped text; the control words in front of it are those of
    [control_words] whose style field is set, in the fixed order
    background, foreground, bold, italic, underline, border; the text is
    in a group of its own behind them exactly when there is one of them,
    which is when a style field is set, and bare otherwise. *)
Theorem render_token_style_prefix (f : RtfFormatter) (cm : gmap pystr Z)
    (w : nat) (l : Z) (o : bool) (out : list pystr) (t : _TokenType)
    (v : pystr) (l' : Z) (o' : bool) (out' : list pystr) :
  render_token f cm w (l, o, out) (t, v) = Ok (l', o', out') →
  let sd := style_for_token (style f) (resolve (style f) t) in
  let start := style_prefix cm sd in
  style_start cm sd = Ok start
  ∧ out'
    = out
      ++ (if linenos f && o then [lineno_group f (lineno_str f w l)] else [])
      ++ (if bool_decide (start ≠ [])
          then [lit "{" ++ start ++ lit " "; _escape_text v; lit "}"]
          else [_escape_text v])
  ∧ (start ≠ []
     ↔ bgcolor sd ≠ [] ∨ color sd ≠ [] ∨ bold sd = true ∨ italic sd = true
       ∨ underline sd = true ∨ border sd ≠ []).
Proof.
  intros Hrun sd start. rewrite render_token_eq in Hrun.
  destruct (linenos f && o && (linenostep f =? 0)%Z); [done|].
  fold sd in Hrun. rewrite style_start_spec in Hrun |- *.
  case_bool_decide; [|done].
  cbn [mbind result_bind mret result_ret] in Hrun.
  injection Hrun as _ _ <-. split; [done|]. split; [done|].
  subst start. rewrite style_prefix_nil.
  destruct (decide (bgcolor sd = [])), (decide (color sd = [])),
    (decide (border sd = [])), (bold sd), (italic sd), (underline sd);
    intuition congruence.
Qed.

(** ** The options *)

(** C10: the first line number and the step are stored as absolute
    values, so that the formatter built from a negative value is the one
    built from its positive counterpart, and renders as it does. *)
Theorem init_abs (int16 : pystr → option Z) (options : Options) (v : Z)
    (tokensource : list token) :
  linenostart (__init__ (with_linenostart options v)) = Z.abs v
  ∧ linenostep (__init__ (with_linenostep options v)) = Z.abs v
  ∧ __init__ (with_linenostart options (- v))
    = __init__ (with_linenostart options v)
  ∧ __init__ (with_linenostep options (- v))
    = __init__ (with_linenostep options v)
  ∧ format_unencoded int16 (__init__ (with_linenostart options (- v)))
      tokensource
    = format_unencoded int16 (__init__ (with_linenostart options v))
        tokensource
  ∧ format_unencoded int16 (__init__ (with_linenostep options (- v)))
      tokensource
    = format_unencoded int16 (__init__ (with_linenostep options v))
        tokensource.
Proof.
  assert (__init__ (with_linenostart options (- v))
          = __init__ (with_linenostart options v)) as Hstart.
  { unfold __init__, with_linenostart. cbn. by rewrite Z.abs_opp. }
  assert (__init__ (with_linenostep options (- v))
          = __init__ (with_linenostep options v)) as Hstep.
  { unfold __init__, with_linenostep. cbn. by rewrite Z.abs_opp. }
  repeat split; try done; by rewrite ?Hstart, ?Hstep.
Qed.

Lemma render_token_style_prefix_witness :
  render_token numbered_formatter {[ lit "FF0000" := 1%Z ]} 1
    (1%Z, true, []) (Keyword, lit "if")
  = Ok (1%Z, false,
        [lit "{\fs18 \cf1 1  }"; lit "{\cf1\b "; lit "if"; lit "}"])
  ∧ style_start {[ lit "FF0000" := 1%Z ]} keyword_style = Ok (lit "\cf1\b").
Proof.
  assert (render_token numbered_formatter {[ lit "FF0000" := 1%Z ]} 1
            (1%Z, true, []) (Keyword, lit "if")
          = Ok (1%Z, false,
                [lit "{\fs18 \cf1 1  }"; lit "{\cf1\b "; lit "if"; lit "}"]))
    as Hrun by (vm_compute; reflexivity).
  split; [exact Hrun|].
  destruct (render_token_style_prefix _ _ _ _ _ _ _ _ _ _ _ Hrun)
    as [Hstart _].
  exact Hstart.
Defined.

(** ** Every colour of a token is in the table *)

Lemma fragments_type (tok tok' : token) :
  tok' ∈ fragments tok → tok'.1 = tok.1.
Proof.
  unfold fragments. case_bool_decide.
  - rewrite list_elem_of_fmap. by intros (line & -> & _).
  - rewrite list_elem_of_singleton. by intros ->.
Qed.

Lemma prepass_types (tokensource : list token) (tok' : token) :
  tok' ∈ (prepass tokensource).2 →
  ∃ tok, tok ∈ tokensource ∧ tok'.1 = tok.1.
Proof.
  rewrite prepass_spec. cbn [snd]. rewrite list_elem_of_bind.
  intros (tok & Hin & Htok). exists tok. split; [done|].
  by apply fragments_type.
Qed.

(** The loop only appends to the output file. *)
Lemma render_loop_appends (f : RtfFormatter) (cm : gmap pystr Z) (w : nat)
    (tokens : list token) :
  ∀ l o out l' o' out',
    for_each (render_token f cm w) tokens (l, o, out) = Ok (l', o', out') →
    ∃ new, out' = out ++ new.
Proof.
  induction tokens as [|[t v] tokens IH]; intros l o out l' o' out'.
  - cbn. intros [= <- <- <-]. exists []. by rewrite app_nil_r.
  - cbn [for_each]. rewrite render_token_eq.
    destruct (linenos f && o && (linenostep f =? 0)%Z); [done|].
    destruct (style_start cm _) as [start|e]; [|done].
    cbn [mbind result_bind mret result_ret].
    intros Hloop. apply IH in Hloop as [new ->].
    eexists. by rewrite <- !app_assoc.
Qed.

(** The loop raises no [KeyError] when the colours of its tokens are
    in the mapping. *)
Lemma render_loop_no_KeyError (f : RtfFormatter) (cm : gmap pystr Z) (w : nat)
    (tokens : list token) :
  (∀ tok, tok ∈ tokens →
     Forall (λ c, is_Some (cm !! c))
       (colors_of (style_for_token (style f) (resolve (style f) tok.1)))) →
  ∀ st, for_each (render_token f cm w) tokens st ≠ Raise KeyError.
Proof.
  induction tokens as [|[t v] tokens IH]; intros Hcol [[l o] out]; [done|].
  cbn [for_each]. rewrite render_token_eq.
  destruct (linenos f && o && (linenostep f =? 0)%Z); [done|].
  rewrite style_start_spec, bool_decide_eq_true_2.
  - cbn [mbind result_bind mret result_ret]. apply IH.
    intros tok Hin. apply Hcol. by right.
  - apply (Hcol (t, v)). by left.
Qed.

(** The loop appends, to what the file held, the strings of
    [loop_chunks]. *)
Lemma render_loop_chunks (f : RtfFormatter) (cm : gmap pystr Z) (w : nat)
    (tokens : list token) :
  ∀ l o out l' o' out',
    for_each (render_token f cm w) tokens (l, o, out) = Ok (l', o', out') →
    out' = out ++ loop_chunks f cm w l o tokens.
Proof.
  induction tokens as [|[t v] tokens IH]; intros l o out l' o' out'.
  - cbn. intros [= <- <- <-]. by rewrite app_nil_r.
  - cbn [for_each]. rewrite render_token_eq.
    destruct (linenos f && o && (linenostep f =? 0)%Z); [done|].
    rewrite style_start_spec. case_bool_decide; [|done].
    cbn [mbind result_bind mret result_ret]. intros Hloop.
    apply IH in Hloop as ->. cbn [loop_chunks]. unfold token_run.
    cbn [fst snd]. by rewrite <- !app_assoc.
Qed.

(** Without line numbers the state of the loop is not read. *)
Lemma loop_chunks_unnumbered (f : RtfFormatter) (cm : gmap pystr Z)
    (tokens : list token) :
  linenos f = false →
  ∀ w l o w' l' o',
    loop_chunks f cm w l o tokens = loop_chunks f cm w' l' o' tokens.
Proof.
  intros Hln. induction tokens as [|tok tokens IH]; intros w l o w' l' o';
    [done|].
  cbn [loop_chunks]. rewrite Hln. cbn [andb app]. f_equal. apply IH.
Qed.

Lemma loop_tokens_types (f : RtfFormatter) (tokensource : list token)
    (tok' : token) :
  tok' ∈ loop_tokens f tokensource →
  ∃ tok, tok ∈ tokensource ∧ tok'.1 = tok.1.
Proof.
  unfold loop_tokens. destruct (linenos f); [apply prepass_types|eauto].
Qed.

Section color_references.

Variable int16 : pystr → option Z.

(** A colour of a style of the enumeration has its index and its entry. *)
Lemma enumerated_color_indexed (sty : Style) (out0 : list pystr)
    (m : gmap pystr Z) (off : Z) (entries : list pystr) (sd : StyleDict)
    (c : pystr) :
  color_table int16 sty out0 = Ok (m, off, out0 ++ entries) →
  sd ∈ (style_items sty).*2 → c ∈ colors_of sd →
  ∃ (k : nat) (e : pystr),
    m !! c = Some (Z.of_nat k + 1)%Z ∧ entries !! k = Some e
    ∧ color_entry int16 c = Ok e.
Proof.
  intros Hct Hsd Hc.
  apply color_table_spec in Hct as [[_ Hm] (entries' & Heq & Hent)].
  apply app_inv_head in Heq as <-.
  assert (c ∈ scanned_colors sty) as Hin.
  { unfold scanned_colors. apply list_elem_of_bind.
    apply list_elem_of_fmap in Hsd as (item & -> & Hitem). eauto. }
  apply (first_occurrences_complete []) in Hin as [Hin|Hin];
    [by apply elem_of_nil in Hin|].
  apply list_elem_of_lookup in Hin as [k Hk].
  destruct (Forall2_lookup_l _ _ _ _ _ Hent Hk) as (e & He & Hce & _).
  exists k, e. split; [|done]. apply Hm. eauto.
Qed.

(** The style of a type the style knows is a style of the enumeration. *)
Lemma enumerated_style (sty : Style) (t : _TokenType) :
  enumerated sty t → style_for_token sty t ∈ (style_items sty).*2.
Proof.
  intros Hin. apply list_elem_of_fmap. by exists (t, style_for_token sty t).
Qed.

(** The table has an entry exactly when the style has a colour. *)
Lemma color_table_entries (sty : Style) (out0 : list pystr)
    (m : gmap pystr Z) (off : Z) (entries : list pystr) :
  color_table int16 sty out0 = Ok (m, off, out0 ++ entries) →
  (scanned_colors sty ≠ [] → ∃ e, entries !! 0%nat = Some e)
  ∧ (scanned_colors sty = [] → entries = []).
Proof.
  intros Hct.
  apply color_table_spec in Hct as [_ (entries' & Heq & Hent)].
  apply app_inv_head in Heq as <-. split.
  - destruct (scanned_colors sty) as [|c cs] eqn:Hcs; [done|]. intros _.
    assert (c ∈ scanned_colors sty) as Hin by (rewrite Hcs; by left).
    apply (first_occurrences_complete []) in Hin as [Hin|Hin];
      [by apply elem_of_nil in Hin|].
    rewrite Hcs in Hin.
    destruct (first_occurrences [] (c :: cs)) as [|d ds];
      [by apply elem_of_nil in Hin|].
    apply Forall2_cons_inv_l in Hent as (e & entries' & _ & _ & ->).
    by exists e.
  - intros Hcs. rewrite Hcs in Hent. cbn in Hent.
    by apply Forall2_nil_inv_l in Hent.
Qed.

(** C9, as the code has it: when the token type the loop resolves for
    every token is one the style enumerates, the lookup of a colour never
    fails, so the formatter raises no [KeyError].  A document it returns
    is the header with the entries of the colour table, the font size
    when there is one, and then exactly what the loop writes for its
    tokens: the groups of the line numbers, which name the colour of
    index 1, and for every token its text behind the control words of its
    style, whose colour indices are those of the mapping.  Every colour
    of the style of a token has an index in the mapping, from 1 on, at
    which the colour table of the header holds the entry of that colour.
    The index 1 of the line numbers is a constant of the code: the table
    has an entry for it when the style has a colour, and none when the
    style has no colour. *)
Theorem color_lookup_total (f : RtfFormatter) (tokensource : list token) :
  (∀ tok, tok ∈ tokensource →
     enumerated (style f) (resolve (style f) tok.1)) →
  format_unencoded int16 f tokensource ≠ Raise KeyError
  ∧ ∀ out, format_unencoded int16 f tokensource = Ok out →
      ∃ m off entries,
        color_table int16 (style f) [header f]
        = Ok (m, off, header f :: entries)
        ∧ out = (header f :: entries) ++ [lit "}\f0 "]
                ++ (if bool_decide (fontsize f ≠ 0%Z)
                    then [lit "\fs" ++ str (fontsize f)] else [])
                ++ loop_chunks f m (length (str (prepass tokensource).1))
                     (linenostart f) true (loop_tokens f tokensource)
                ++ [lit "}"]
        ∧ (∀ tok c,
             tok ∈ loop_tokens f tokensource →
             c ∈ colors_of
                   (style_for_token (style f) (resolve (style f) tok.1)) →
             ∃ (k : nat) (e : pystr),
               m !! c = Some (Z.of_nat k + 1)%Z
               ∧ m !!! c = (Z.of_nat k + 1)%Z
               ∧ entries !! k = Some e
               ∧ color_entry int16 c = Ok e)
        ∧ (scanned_colors (style f) ≠ [] → ∃ e, entries !! 0%nat = Some e)
        ∧ (scanned_colors (style f) = [] → entries = []).
Proof.
  intros Henum.
  assert (∀ m off entries tok c,
            color_table int16 (style f) [header f]
            = Ok (m, off, [header f] ++ entries) →
            tok ∈ loop_tokens f tokensource →
            c ∈ colors_of
                  (style_for_token (style f) (resolve (style f) tok.1)) →
            ∃ (k : nat) (e : pystr),
              m !! c = Some (Z.of_nat k + 1)%Z ∧ entries !! k = Some e
              ∧ color_entry int16 c = Ok e) as Hidx.
  { intros m off entries tok c Hct Hin Hc.
    apply loop_tokens_types in Hin as (tok0 & Hin0 & Heq).
    rewrite Heq in Hc.
    exact (enumerated_color_indexed _ _ _ _ _ _ c Hct
             (enumerated_style _ _ (Henum tok0 Hin0)) Hc). }
  split.
  - unfold format_unencoded.
    destruct (color_table int16 (style f) [header f]) as [[[m off] out1]|e]
      eqn:Hct.
    + cbn [mbind result_bind].
      pose proof (color_table_spec _ _ _ _ _ _ Hct) as [_ (entries & -> & _)].
      assert (∀ tok, tok ∈ loop_tokens f tokensource →
                Forall (λ c, is_Some (m !! c))
                  (colors_of
                     (style_for_token (style f)
                        (resolve (style f) tok.1)))) as Hcol.
      { intros tok Hin. apply Forall_forall. intros c Hc.
        destruct (Hidx _ _ _ _ _ eq_refl Hin Hc) as (k & e & -> & _).
        by eexists. }
      unfold loop_tokens in Hcol. destruct (linenos f).
      * destruct (prepass tokensource) as [n tokens] eqn:Hpre.
        destruct (for_each _ tokens _) as [[[l o] body]|e] eqn:Hloop;
          [done|].
        cbn [mbind result_bind]. intros [= ->].
        by eapply render_loop_no_KeyError; [|exact Hloop].
      * destruct (for_each _ tokensource _) as [[[l o] body]|e] eqn:Hloop;
          [done|].
        cbn [mbind result_bind]. intros [= ->].
        by eapply render_loop_no_KeyError; [|exact Hloop].
    + cbn [mbind result_bind]. intros [= ->].
      unfold color_table in Hct. rewrite for_each_nested in Hct.
      by apply color_steps_raise in Hct.
  - intros out Hrun.
    apply format_unencoded_inv in Hrun
      as (m & off & entries & l & o & body & Hct & _ & _ & -> & Hloop).
    exists m, off, entries. split; [done|]. split; [|split].
    + unfold loop_tokens. destruct (linenos f) eqn:Hln.
      * apply render_loop_chunks in Hloop as ->.
        by rewrite <- !app_assoc.
      * apply render_loop_chunks in Hloop as ->.
        rewrite (loop_chunks_unnumbered f m tokensource Hln
                   0%nat 0%Z false
                   (length (str (prepass tokensource).1))
                   (linenostart f) true).
        by rewrite <- !app_assoc.
    + intros tok c Hin Hc.
      destruct (Hidx _ _ _ _ _ Hct Hin Hc) as (k & e & Hm & He & Hce).
      exists k, e. split; [done|]. split; [|done].
      by rewrite lookup_total_alt, Hm.
    + exact (color_table_entries _ [header f] _ _ _ Hct).
Qed.

End color_references.

Lemma color_lookup_total_witness :
  (∀ tok, tok ∈ scenario →
     enumerated (style standard_formatter)
       (resolve (style standard_formatter) tok.1))
  ∧ format_unencoded hex_int standard_formatter scenario
    = Ok standard_document
  ∧ format_unencoded hex_int standard_formatter scenario ≠ Raise KeyError.
Proof.
  assert (∀ tok, tok ∈ scenario →
            enumerated (style standard_formatter)
              (resolve (style standard_formatter) tok.1)) as Henum.
  { intros tok Hin.
    repeat (apply elem_of_cons in Hin as [->|Hin]);
      try (by apply elem_of_nil in Hin);
      apply list_elem_of_In; vm_compute; tauto. }
  split; [exact Henum|]. split; [by vm_compute|].
  exact (proj1 (color_lookup_total hex_int standard_formatter scenario
                  Henum)).
Defined.

(** Against C9 as the specification states it: a style without colours
    that knows the type of the token has a colour table without an entry,
    and the group of the line number in the body still names the colour
    of index 1. *)
Lemma color_lookup_total_counterexample :
  (∀ tok, tok ∈ open_line →
     enumerated (style colourless_formatter)
       (resolve (style colourless_formatter) tok.1))
  ∧ color_table hex_int (style colourless_formatter)
      [header colourless_formatter]
    = Ok (∅, 1%Z, [header colourless_formatter])
  ∧ format_unencoded hex_int colourless_formatter open_line
    = Ok [ header colourless_formatter; lit "}\f0 ";
           lit "{\fs18 \cf1 1  }"; lit "a"; lit "}" ].
Proof.
  split; [|split; by vm_compute].
  intros tok Hin. apply list_elem_of_singleton in Hin as ->.
  apply list_elem_of_In. vm_compute. tauto.
Qed.

(** ** The scenario of the specification *)

Example scenario_without_line_numbers :
  format_unencoded hex_int plain_formatter
    [ (Keyword, lit "if"); (Text, lit " "); (Name, lit "x"); newline_token ]
  = Ok [ lit "{\rtf1\ansi\uc0\deff0{\fonttbl{\f0\fmodern\fprq1\fcharset0;}}{\colortbl;";
         lit "\red255\green0\blue0;"; lit "\red0\green0\blue255;";
         lit "}\f0 ";
         lit "{\cf1\b "; lit "if"; lit "}";
         lit " ";
         lit "{\cf2 "; lit "x"; lit "}";
         lit "\par" ++ [NEWLINE];
         lit "}" ].
Proof. by vm_compute. Qed.

Example empty_stream :
  format_unencoded hex_int (__init__ (example_options bare_style false None None)) []
  = Ok [ lit "{\rtf1\ansi\uc0\deff0{\fonttbl{\f0\fmodern\fprq1\fcharset0;}}{\colortbl;";
         lit "}\f0 "; lit "}" ].
Proof. by vm_compute. Qed.

(** * Further properties of the escapers *)

Lemma _escape_cons (c : N) (s : pystr) :
  _escape (c :: s) = _escape [c] ++ _escape s.
Proof. apply (_escape_app [c] s). Qed.

Lemma _escape_char_cases (c : N) :
  (c ∈ [BACKSLASH; LBRACE; RBRACE] ∧ _escape [c] = [BACKSLASH; c])
  ∨ (plain c ∧ _escape [c] = [c]).
Proof.
  destruct (decide (c = BACKSLASH)) as [->|H1];
    [left; split; [rewrite !elem_of_cons; auto|done]|].
  destruct (decide (c = LBRACE)) as [->|H2];
    [left; split; [rewrite !elem_of_cons; auto|done]|].
  destruct (decide (c = RBRACE)) as [->|H3];
    [left; split; [rewrite !elem_of_cons; auto|done]|].
  right. split; [done|]. by apply _escape_plain.
Qed.

Lemma unescape_escape_all (text : pystr) : unescape (_escape text) = text.
Proof.
  induction text as [|c s IH]; [done|].
  rewrite _escape_cons.
  destruct (_escape_char_cases c) as [[Hc ->]|[[Hc _] ->]]; cbn [app].
  - by rewrite unescape_pair, IH.
  - by rewrite unescape_plain, IH.
Qed.

(** X1: [_escape] loses nothing: mapping each backslash pair of its
    output back to the character gives the text again, whatever the text
    holds, so two texts with the same escaped form are the same text. *)
Theorem _escape_round_trip :
  (∀ text : pystr, unescape (_escape text) = text)
  ∧ (∀ a b : pystr, _escape a = _escape b → a = b).
Proof.
  split; [apply unescape_escape_all|].
  intros a b Heq. apply (f_equal unescape) in Heq.
  by rewrite !unescape_escape_all in Heq.
Qed.

(** X2: both escapers work character by character: the escaped form of
    a concatenation is the concatenation of the escaped forms, so cutting
    a text into tokens at any place does not change what is written for
    it. *)
Theorem escape_concat (a b : pystr) :
  _escape (a ++ b) = _escape a ++ _escape b
  ∧ _escape_text (a ++ b) = _escape_text a ++ _escape_text b.
Proof. split; [apply _escape_app|apply _escape_text_app]. Qed.

Lemma newlines_app (a b : pystr) : newlines (a ++ b) = (newlines a + newlines b)%nat.
Proof. unfold newlines. by rewrite filter_app, length_app. Qed.

Lemma newlines_absent (s : pystr) : NEWLINE ∉ s → newlines s = 0%nat.
Proof.
  unfold newlines. induction s as [|c s IH]; [done|].
  rewrite not_elem_of_cons. intros [Hc Hs].
  rewrite filter_cons, decide_False by done. by apply IH.
Qed.

Lemma str_no_newline (n : Z) : NEWLINE ∉ str n.
Proof.
  intros Hin. pose proof (str_chars n) as Hf.
  rewrite Forall_forall in Hf. apply Hf in Hin. unfold NEWLINE in Hin. lia.
Qed.

Lemma newlines_escape_text_char (c : N) :
  newlines (_escape_text [c]) = newlines [c]
  ∧ (1 ≤ length (_escape_text [c]))%nat.
Proof.
  destruct (_escape_text_char_cases c)
    as [[-> ->]|[[-> ->]|[[-> ->]|[[-> ->]|[[_ [_ [_ [_ [_ ->]]]]]|
        [[[Hge _] ->]|[Hge ->]]]]]]]; try (split; [done|cbn; lia]).
  - split; [|rewrite length_app; cbn; lia].
    rewrite !newlines_app, (newlines_absent (str _)) by apply str_no_newline.
    unfold newlines at 3. rewrite filter_cons, decide_False, filter_nil;
      [done|]. unfold NEWLINE. lia.
  - split; [|rewrite length_app; cbn; lia].
    rewrite !newlines_app, !(newlines_absent (str _))
      by apply str_no_newline.
    unfold newlines at 4. rewrite filter_cons, decide_False, filter_nil;
      [done|]. unfold NEWLINE. lia.
Qed.

(** X3: the escaper keeps the line breaks and drops nothing: its output
    has as many newlines as the text, is at least as long as the text, and
    is empty only for the empty text. *)
Theorem escape_text_newlines (text : pystr) :
  newlines (_escape_text text) = newlines text
  ∧ (length text ≤ length (_escape_text text))%nat
  ∧ (_escape_text text = [] ↔ text = []).
Proof.
  assert (newlines (_escape_text text) = newlines text
          ∧ (length text ≤ length (_escape_text text))%nat) as [Hn Hl].
  { induction text as [|c s [IHn IHl]]; [done|].
    rewrite _escape_text_cons, newlines_app, length_app.
    destruct (newlines_escape_text_char c) as [Hc1 Hc2].
    rewrite Hc1, IHn. change (c :: s) with ([c] ++ s).
    rewrite newlines_app. cbn [length app]. split; lia. }
  split; [done|]. split; [done|]. split.
  - intros Hnil. rewrite Hnil in Hl. destruct text; [done|cbn in Hl; lia].
  - by intros ->.
Qed.

(** ** Groups *)

Lemma groups_app (a b : pystr) (st : option (nat * bool)) :
  groups (a ++ b) st = groups b (groups a st).
Proof. apply foldl_app. Qed.

Lemma neutral_nil : neutral [].
Proof. by intros depth. Qed.

Lemma neutral_app (a b : pystr) : neutral a → neutral b → neutral (a ++ b).
Proof. intros Ha Hb depth. by rewrite groups_app, Ha, Hb. Qed.

Lemma neutral_concat (l : list pystr) : Forall neutral l → neutral (concat l).
Proof.
  induction 1; [apply neutral_nil|]. by apply neutral_app.
Qed.

Lemma neutral_plain (s : pystr) : Forall plain s → neutral s.
Proof.
  induction 1 as [|c s [H1 [H2 H3]] _ IH]; [apply neutral_nil|].
  intros depth. unfold groups. cbn [foldl group_step].
  destruct (N.eqb_spec c BACKSLASH); [done|].
  destruct (N.eqb_spec c LBRACE); [done|].
  destruct (N.eqb_spec c RBRACE); [done|]. apply IH.
Qed.

Lemma str_plain (n : Z) : Forall plain (str n).
Proof.
  eapply Forall_impl; [apply str_chars|]. intros c Hc. cbn beta in Hc.
  unfold plain, BACKSLASH, LBRACE, RBRACE. lia.
Qed.

Lemma neutral_str (n : Z) : neutral (str n).
Proof. apply neutral_plain, str_plain. Qed.

Lemma neutral_escape_char (c : N) : neutral (_escape [c]).
Proof.
  destruct (_escape_char_cases c) as [[Hc ->]|[Hc ->]].
  - intros depth. unfold groups. cbn [foldl group_step]. done.
  - apply neutral_plain. by constructor.
Qed.

Lemma neutral_escape (s : pystr) : neutral (_escape s).
Proof.
  induction s as [|c s IH]; [apply neutral_nil|].
  rewrite _escape_cons. apply neutral_app; [apply neutral_escape_char|done].
Qed.

Lemma neutral_escape_text_char (c : N) : neutral (_escape_text [c]).
Proof.
  destruct (_escape_text_char_cases c)
    as [[_ ->]|[[_ ->]|[[_ ->]|[[_ ->]|[[_ [H1 [H2 [H3 [_ ->]]]]]|
        [[_ ->]|[_ ->]]]]]]].
  - by intros depth.
  - by intros depth.
  - by intros depth.
  - by intros depth.
  - apply neutral_plain. by repeat constructor.
  - intros depth.
    rewrite !groups_app. change (groups (lit "{\u") (Some (depth, false)))
      with (Some (S depth, false)).
    by rewrite neutral_str.
  - intros depth.
    rewrite !groups_app. change (groups (lit "{\u") (Some (depth, false)))
      with (Some (S depth, false)).
    rewrite neutral_str.
    change (groups (lit "}{\u") (Some (S depth, false)))
      with (Some (S depth, false)).
    by rewrite neutral_str.
Qed.

Lemma neutral_escape_text (s : pystr) : neutral (_escape_text s).
Proof.
  induction s as [|c s IH]; [apply neutral_nil|].
  rewrite _escape_text_cons.
  apply neutral_app; [apply neutral_escape_text_char|done].
Qed.

(** X4: what the escapers write has no group structure of its own: read
    with a backslash escaping the character behind it, the escaped form of
    any text opens no group that it does not close, closes none that it
    did not open, and does not end in a lone backslash. *)
Theorem escape_neutral (text : pystr) (depth : nat) :
  groups (_escape text) (Some (depth, false)) = Some (depth, false)
  ∧ groups (_escape_text text) (Some (depth, false)) = Some (depth, false).
Proof. split; [apply neutral_escape|apply neutral_escape_text]. Qed.

(** * Further properties of the document *)

Ltac lit_seven_bit := unfold seven_bit; by repeat constructor.

Lemma str_seven_bit (n : Z) : Forall seven_bit (str n).
Proof.
  eapply Forall_impl; [apply str_chars|]. intros c Hc. cbn beta in Hc.
  unfold seven_bit. lia.
Qed.

Lemma _escape_text_seven_bit (s : pystr) : Forall seven_bit (_escape_text s).
Proof.
  induction s as [|c s IH]; [constructor|].
  rewrite _escape_text_cons. apply Forall_app.
  split; [apply _escape_text_char_ascii|exact IH].
Qed.

Lemma rjust_Forall (P : N → Prop) (s : pystr) (w : nat) :
  P SPACE → Forall P s → Forall P (rjust s w).
Proof.
  intros Hsp Hs. unfold rjust. apply Forall_app. split; [|done].
  by apply Forall_replicate.
Qed.

Lemma lineno_str_Forall (P : N → Prop) (f : RtfFormatter) (w : nat) (n : Z) :
  P SPACE → (∀ k, Forall P (str k)) → Forall P (lineno_str f w n).
Proof.
  intros Hsp Hstr. unfold lineno_str.
  destruct (_ =? _)%Z; apply rjust_Forall; auto.
Qed.

(** The prefix of a style is made of control words of [control_words]. *)
Lemma style_prefix_concat (P : pystr → Prop) (cm : gmap pystr Z)
    (sd : StyleDict) :
  Forall P (snd <$> control_words cm sd) →
  ∃ words, style_prefix cm sd = concat words ∧ Forall P words.
Proof.
  intros HP. unfold style_prefix. eexists. split; [reflexivity|].
  apply Forall_forall. intros word Hin.
  apply list_elem_of_bind in Hin as (w & Hw & Hin).
  rewrite Forall_forall in HP. apply HP.
  destruct (w.1); [|by apply elem_of_nil in Hw].
  apply list_elem_of_singleton in Hw as ->. by apply list_elem_of_fmap_2.
Qed.

Lemma neutral_style_prefix (cm : gmap pystr Z) (sd : StyleDict) :
  neutral (style_prefix cm sd).
Proof.
  destruct (style_prefix_concat neutral cm sd) as (words & -> & Hw).
  - unfold control_words. cbn [fmap list_fmap snd].
    repeat apply List.Forall_cons; try apply List.Forall_nil;
      try (apply neutral_app; [|apply neutral_str]);
      unfold neutral; by intros depth.
  - by apply neutral_concat.
Qed.

Lemma seven_bit_style_prefix (cm : gmap pystr Z) (sd : StyleDict) :
  Forall seven_bit (style_prefix cm sd).
Proof.
  destruct (style_prefix_concat (Forall seven_bit) cm sd)
    as (words & -> & Hw).
  - unfold control_words. cbn [fmap list_fmap snd].
    repeat apply List.Forall_cons; try apply List.Forall_nil;
      first [apply str_seven_bit | by vm_compute].
  - by apply Forall_concat.
Qed.

Lemma neutral_styled_run (cm : gmap pystr Z) (sd : StyleDict) (v : pystr) :
  neutral (concat (styled_run (style_prefix cm sd) (_escape_text v))).
Proof.
  unfold styled_run. destruct (bool_decide _); cbn [concat].
  - intros depth. rewrite !groups_app.
    change (groups (lit "{") (Some (depth, false)))
      with (Some (S depth, false)).
    rewrite neutral_style_prefix.
    change (groups (lit " ") (Some (S depth, false)))
      with (Some (S depth, false)).
    by rewrite neutral_escape_text.
  - rewrite app_nil_r. apply neutral_escape_text.
Qed.

Lemma seven_bit_styled_run (cm : gmap pystr Z) (sd : StyleDict) (v : pystr) :
  Forall seven_bit (concat (styled_run (style_prefix cm sd) (_escape_text v))).
Proof.
  unfold styled_run. destruct (bool_decide _); cbn [concat];
    rewrite ?Forall_app; repeat split;
    try apply seven_bit_style_prefix; try apply _escape_text_seven_bit;
    lit_seven_bit.
Qed.

Lemma neutral_lineno_group (f : RtfFormatter) (w : nat) (n : Z) :
  neutral (lineno_group f (lineno_str f w n)).
Proof.
  intros depth. unfold lineno_group. rewrite !groups_app.
  change (groups (lit "{\fs") (Some (depth, false)))
    with (Some (S depth, false)).
  rewrite neutral_str.
  change (groups (lit " \cf1 ") (Some (S depth, false)))
    with (Some (S depth, false)).
  rewrite (neutral_plain (lineno_str f w n)); [done|].
  apply lineno_str_Forall; [|apply str_plain].
  unfold plain, SPACE, BACKSLASH, LBRACE, RBRACE. lia.
Qed.

Lemma seven_bit_lineno_group (f : RtfFormatter) (w : nat) (n : Z) :
  Forall seven_bit (lineno_group f (lineno_str f w n)).
Proof.
  unfold lineno_group. rewrite !Forall_app. repeat split;
    try apply str_seven_bit; try lit_seven_bit.
  apply lineno_str_Forall; [by vm_compute|apply str_seven_bit].
Qed.

(** What the loop appends has every property that the slots and the runs
    of the tokens have and that concatenation keeps. *)
Lemma render_loop_closed (Q : list pystr → Prop) (f : RtfFormatter)
    (cm : gmap pystr Z) (w : nat) (tokens : list token) :
  Q [] → (∀ a b, Q a → Q b → Q (a ++ b)) →
  (∀ n, Q [lineno_group f (lineno_str f w n)]) →
  (∀ sd v, Q (styled_run (style_prefix cm sd) (_escape_text v))) →
  ∀ l o out l' o' out',
    for_each (render_token f cm w) tokens (l, o, out) = Ok (l', o', out') →
    ∃ new, out' = out ++ new ∧ Q new.
Proof.
  intros Hnil Happ Hslot Hrun.
  induction tokens as [|[t v] tokens IH]; intros l o out l' o' out'.
  - cbn. intros [= <- <- <-]. exists []. by rewrite app_nil_r.
  - cbn [for_each]. rewrite render_token_eq.
    destruct (linenos f && o && (linenostep f =? 0)%Z); [done|].
    rewrite style_start_spec. case_bool_decide; [|done].
    cbn [mbind result_bind mret result_ret].
    intros Hloop. apply IH in Hloop as (new & -> & Hnew).
    eexists. split; [by rewrite <- !app_assoc|].
    apply Happ; [|apply Happ; [apply Hrun|exact Hnew]].
    destruct (linenos f && o); [apply Hslot|apply Hnil].
Qed.

Section document.

Variable int16 : pystr → option Z.

Lemma color_entry_shape (c e : pystr) :
  color_entry int16 c = Ok e →
  ∃ r g b, e = lit "\red" ++ str r ++ lit "\green" ++ str g
               ++ lit "\blue" ++ str b ++ lit ";".
Proof.
  unfold color_entry, int_16.
  destruct (int16 (slice 0 2 c)) as [r|]; [|done].
  destruct (int16 (slice 2 4 c)) as [g|]; [|done].
  destruct (int16 (slice 4 6 c)) as [b|]; [|done].
  intros [= <-]. by exists r, g, b.
Qed.

(** The parts of a document: the header, the entries of the colour
    table, the end of the table, the font size when there is one, what
    the loop wrote and the closing brace. *)
Lemma format_unencoded_chunks (Q : list pystr → Prop) (f : RtfFormatter)
    (tokensource : list token) (out : list pystr) :
  Q [] → (∀ a b, Q a → Q b → Q (a ++ b)) →
  (∀ w n, Q [lineno_group f (lineno_str f w n)]) →
  (∀ cm sd v, Q (styled_run (style_prefix cm sd) (_escape_text v))) →
  format_unencoded int16 f tokensource = Ok out →
  ∃ entries body,
    out = [header f] ++ entries ++ [lit "}\f0 "]
          ++ (if bool_decide (fontsize f ≠ 0%Z)
              then [lit "\fs" ++ str (fontsize f)] else [])
          ++ body ++ [lit "}"]
    ∧ Forall (λ e, ∃ r g b,
                e = lit "\red" ++ str r ++ lit "\green" ++ str g
                    ++ lit "\blue" ++ str b ++ lit ";") entries
    ∧ Q body.
Proof.
  intros Hnil Happ Hslot Hrun Hok.
  apply format_unencoded_inv in Hok
    as (m & off & entries & l & o & body & Hct & _ & _ & -> & Hloop).
  apply color_table_spec in Hct as [_ (entries' & Heq & Hent)].
  apply (app_inv_head [header f]) in Heq as <-.
  assert (∃ new, body = ((header f :: entries) ++ [lit "}\f0 "]
                         ++ (if bool_decide (fontsize f ≠ 0%Z)
                             then [lit "\fs" ++ str (fontsize f)] else []))
                        ++ new ∧ Q new) as (new & -> & Hnew).
  { destruct (linenos f);
      eapply render_loop_closed in Hloop as (new & -> & Hnew); eauto. }
  exists entries, new. split; [|split; [|done]].
  - cbn [app]. by rewrite <- !app_assoc.
  - clear -Hent. induction Hent as [|c e ds entries [He _] _ IH];
      constructor; [|done]. by eapply color_entry_shape.
Qed.

(** X5: a document the formatter returns is one group: read with a
    backslash escaping the character behind it, its braces are balanced,
    no brace closes a group that is not open, and the text does not end
    in a lone backslash, whatever the tokens, the style and the font name
    hold. *)
Theorem document_balanced (f : RtfFormatter) (tokensource : list token)
    (out : list pystr) :
  format_unencoded int16 f tokensource = Ok out →
  groups (concat out) (Some (O, false)) = Some (O, false).
Proof.
  intros Hok.
  apply (format_unencoded_chunks (λ l, neutral (concat l))) in Hok
    as (entries & body & -> & Hent & Hbody).
  - rewrite !concat_app, !groups_app. cbn [concat]. rewrite !app_nil_r.
    assert (groups (header f) (Some (O, false)) = Some (2%nat, false)) as ->.
    { unfold header. rewrite !groups_app.
      change (groups (lit "{\rtf1\ansi\uc0\deff0{\fonttbl{\f0\fmodern\fprq1\fcharset0")
                (Some (O, false))) with (Some (3%nat, false)).
      assert (neutral (if bool_decide (fontface f ≠ [])
                       then lit " " ++ _escape (fontface f) else [])) as ->.
      { destruct (bool_decide _); [|apply neutral_nil].
        apply neutral_app; [by intros depth|apply neutral_escape]. }
      reflexivity. }
    assert (neutral (concat entries)) as ->.
    { apply neutral_concat. eapply Forall_impl; [exact Hent|].
      intros e (r & g & b & ->).
      repeat (apply neutral_app; [|try apply neutral_str]);
        try apply neutral_str; unfold neutral; by intros depth. }
    change (groups (lit "}\f0 ") (Some (2%nat, false)))
      with (Some (1%nat, false)).
    assert (neutral (concat (if bool_decide (fontsize f ≠ 0%Z)
                             then [lit "\fs" ++ str (fontsize f)] else [])))
      as ->.
    { destruct (bool_decide _); [|apply neutral_nil]. cbn [concat].
      rewrite app_nil_r. apply neutral_app; [by intros depth|].
      apply neutral_str. }
    by rewrite Hbody.
  - apply neutral_nil.
  - intros a b Ha Hb. rewrite concat_app. by apply neutral_app.
  - intros w n. cbn [concat]. rewrite app_nil_r. apply neutral_lineno_group.
  - intros cm sd v. apply neutral_styled_run.
Qed.

Lemma escape_elem (c : N) (s : pystr) : c ∈ s → c ∈ _escape s.
Proof.
  induction s as [|d s IH]; [done|].
  rewrite _escape_cons, elem_of_cons, elem_of_app. intros [->|Hin].
  - left. destruct (_escape_char_cases d) as [[_ ->]|[_ ->]];
      rewrite !elem_of_cons; auto.
  - right. by apply IH.
Qed.

Lemma escape_seven_bit (s : pystr) :
  Forall seven_bit s → Forall seven_bit (_escape s).
Proof.
  induction 1 as [|c s Hc _ IH]; [constructor|].
  rewrite _escape_cons. apply Forall_app. split; [|done].
  destruct (_escape_char_cases c) as [[_ ->]|[_ ->]];
    repeat constructor; try done; by vm_compute.
Qed.

(** X6: a document the formatter returns is ASCII exactly when the font
    name is: the tokens, the colours and the numbers never put a
    character from 128 on into it, and the font name is written with its
    braces and backslashes escaped but its other characters as they
    are. *)
Theorem document_seven_bit (f : RtfFormatter) (tokensource : list token)
    (out : list pystr) :
  format_unencoded int16 f tokensource = Ok out →
  (Forall seven_bit (concat out) ↔ Forall seven_bit (fontface f)).
Proof.
  intros Hok.
  apply (format_unencoded_chunks (λ l, Forall seven_bit (concat l))) in Hok
    as (entries & body & -> & Hent & Hbody).
  - rewrite !concat_app, !Forall_app. cbn [concat]. rewrite !app_nil_r.
    split.
    + intros [Hh _]. unfold header in Hh. rewrite !Forall_app in Hh.
      destruct Hh as (_ & Hface & _).
      destruct (fontface f) as [|c face] eqn:Hf; [constructor|].
      rewrite bool_decide_eq_true_2 in Hface by done.
      apply Forall_app in Hface as [_ Hface].
      apply Forall_forall. intros d Hd.
      rewrite Forall_forall in Hface. by apply Hface, escape_elem.
    + intros Hface. repeat split.
      * unfold header. rewrite !Forall_app. repeat split;
          try lit_seven_bit.
        destruct (bool_decide _); [|constructor].
        apply Forall_app. split; [lit_seven_bit|].
        by apply escape_seven_bit.
      * apply Forall_concat. eapply Forall_impl; [exact Hent|].
        intros e (r & g & b & ->). rewrite !Forall_app.
        repeat split; try apply str_seven_bit; lit_seven_bit.
      * lit_seven_bit.
      * destruct (bool_decide _); [|constructor]. cbn [concat].
        rewrite app_nil_r. apply Forall_app.
        split; [lit_seven_bit|apply str_seven_bit].
      * exact Hbody.
      * lit_seven_bit.
  - constructor.
  - intros a b Ha Hb. rewrite concat_app. by apply Forall_app.
  - intros w n. cbn [concat]. rewrite app_nil_r.
    apply seven_bit_lineno_group.
  - intros cm sd v. apply seven_bit_styled_run.
Qed.

End document.

(** * When the formatter raises *)

Section failures.

Variable int16 : pystr → option Z.

Lemma color_steps_ok (cs : list pystr) :
  (∀ c, c ∈ cs → c ≠ [] → ∃ e, color_entry int16 c = Ok e) →
  ∀ st, ∃ st', for_each (color_step int16) cs st = Ok st'.
Proof.
  induction cs as [|c cs IH]; intros Hparse [[m off] out]; [by eexists|].
  cbn [for_each color_step].
  destruct (bool_decide (c ≠ [])) eqn:Hc; cbn [andb].
  - apply bool_decide_eq_true in Hc.
    destruct (Hparse c) as [e He]; [by left|done|].
    destruct (bool_decide _); [rewrite He|];
      cbn [mbind result_bind mret result_ret]; apply IH;
      intros d Hd; apply Hparse; by right.
  - apply IH. intros d Hd. apply Hparse. by right.
Qed.

(** X7: the colour table is built exactly when the three pairs of
    hexadecimal digits of every colour of the style can be read; when one
    cannot, the builder raises [ValueError], and it raises nothing
    else. *)
Theorem color_table_errors (sty : Style) (out0 : list pystr) :
  ((∃ r, color_table int16 sty out0 = Ok r)
   ↔ ∀ c, c ∈ scanned_colors sty → ∃ e, color_entry int16 c = Ok e)
  ∧ ∀ e, color_table int16 sty out0 = Raise e → e = ValueError.
Proof.
  split; [split|].
  - intros [[[m off] out] Hct] c Hc.
    apply color_table_spec in Hct as [_ (entries & _ & Hent)].
    apply (first_occurrences_complete []) in Hc as [Hc|Hc];
      [by apply elem_of_nil in Hc|].
    apply list_elem_of_lookup in Hc as [k Hk].
    destruct (Forall2_lookup_l _ _ _ _ _ Hent Hk) as (e & _ & He & _).
    eauto.
  - intros Hparse. unfold color_table. rewrite for_each_nested.
    apply color_steps_ok. intros c Hc Hne. apply Hparse.
    rewrite scanned_colors_flat. apply list_elem_of_bind.
    exists c. split; [|done].
    rewrite bool_decide_eq_true_2 by done. by left.
  - intros e Hct. unfold color_table in Hct. rewrite for_each_nested in Hct.
    by apply color_steps_raise in Hct.
Qed.

Lemma prepass_nil (tokensource : list token) :
  (prepass tokensource).2 = [] ↔ tokensource = [].
Proof.
  rewrite prepass_spec. cbn [snd]. split; [|by intros ->].
  destruct tokensource as [|tok toks]; [done|].
  rewrite bind_cons. intros Hnil. apply app_eq_nil in Hnil as [Hf _].
  unfold fragments in Hf. case_bool_decide; [|done].
  apply fmap_nil_inv in Hf. by apply split_nonempty in Hf.
Qed.

Lemma render_loop_ZeroDivisionError (f : RtfFormatter) (cm : gmap pystr Z)
    (w : nat) (tokens : list token) :
  ∀ st, for_each (render_token f cm w) tokens st = Raise ZeroDivisionError →
        linenos f = true ∧ linenostep f = 0%Z ∧ tokens ≠ [].
Proof.
  induction tokens as [|[t v] tokens IH]; intros [[l o] out]; [done|].
  cbn [for_each]. rewrite render_token_eq.
  rewrite style_start_spec.
  destruct (linenos f) eqn:Hln, o, (Z.eqb_spec (linenostep f) 0);
    cbn [andb]; try (by intros _; repeat split);
    (case_bool_decide; [|done]);
    cbn [mbind result_bind mret result_ret];
    intros Hloop; apply IH in Hloop as (? & ? & _); done.
Qed.

Lemma render_loop_first_slot (f : RtfFormatter) (cm : gmap pystr Z)
    (w : nat) (tokens : list token) (l : Z) (out : list pystr) :
  linenos f = true → linenostep f = 0%Z → tokens ≠ [] →
  for_each (render_token f cm w) tokens (l, true, out)
  = Raise ZeroDivisionError.
Proof.
  intros Hln Hstep Hne. destruct tokens as [|[t v] tokens]; [done|].
  cbn [for_each]. by rewrite render_token_eq, Hln, Hstep.
Qed.

(** X8: the formatter raises [ZeroDivisionError] exactly when line
    numbers are on, the step is 0, the token stream is not empty and the
    colour table could be built: the first slot divides by the step.
    Without line numbers, or on an empty stream, a step of 0 does no
    harm. *)
Theorem zero_step (f : RtfFormatter) (tokensource : list token) :
  format_unencoded int16 f tokensource = Raise ZeroDivisionError
  ↔ linenos f = true ∧ linenostep f = 0%Z ∧ tokensource ≠ []
    ∧ ∃ r, color_table int16 (style f) [header f] = Ok r.
Proof.
  unfold format_unencoded.
  destruct (color_table int16 (style f) [header f]) as [[[m off] out1]|e]
    eqn:Hct; cbn [mbind result_bind].
  - destruct (linenos f) eqn:Hln.
    + destruct (prepass tokensource) as [n tokens] eqn:Hpre.
      assert (tokens = [] ↔ tokensource = []) as Hnil.
      { rewrite <- (prepass_nil tokensource). by rewrite Hpre. }
      split.
      * destruct (for_each _ tokens _) as [[[l o] body]|e] eqn:Hloop;
          [done|].
        cbn [mbind result_bind]. intros [= ->].
        apply render_loop_ZeroDivisionError in Hloop as (_ & Hstep & Hne).
        repeat split; [done| |by eexists]. intros Hsrc. by apply Hne, Hnil.
      * intros (_ & Hstep & Hne & _).
        rewrite render_loop_first_slot; [done..|].
        intros Htok. by apply Hne, Hnil.
    + split; [|by intros (? & _)].
      destruct (for_each _ tokensource _) as [[[l o] body]|e] eqn:Hloop;
        [done|].
      cbn [mbind result_bind]. intros [= ->].
      apply render_loop_ZeroDivisionError in Hloop as (Hbad & _).
      congruence.
  - split.
    + intros [= ->]. unfold color_table in Hct.
      rewrite for_each_nested in Hct. by apply color_steps_raise in Hct.
    + by intros (_ & _ & _ & [r Hr]).
Qed.

Lemma render_loop_ok (f : RtfFormatter) (cm : gmap pystr Z) (w : nat)
    (tokens : list token) :
  (linenos f = true → linenostep f ≠ 0%Z) →
  (∀ tok, tok ∈ tokens →
     Forall (λ c, is_Some (cm !! c))
       (colors_of (style_for_token (style f) (resolve (style f) tok.1)))) →
  ∀ st, ∃ st', for_each (render_token f cm w) tokens st = Ok st'.
Proof.
  intros Hstep.
  induction tokens as [|[t v] tokens IH]; intros Hcol [[l o] out];
    [by eexists|].
  cbn [for_each]. rewrite render_token_eq.
  replace (linenos f && o && (linenostep f =? 0)%Z) with false.
  - rewrite style_start_spec, bool_decide_eq_true_2
      by (apply (Hcol (t, v)); by left).
    cbn [mbind result_bind mret result_ret]. apply IH.
    intros tok Hin. apply Hcol. by right.
  - destruct (linenos f); [|done].
    destruct (Z.eqb_spec (linenostep f) 0) as [Hz|_]; [by destruct Hstep|].
    by destruct o.
Qed.

(** X9: the formatter returns a document whenever the hexadecimal digits
    of every colour of the style can be read, the step is not 0 when line
    numbers are on, and the token type the loop resolves for every token
    (the type itself, or the nearest ancestor below the root that the
    style knows, or else the ancestor right under the root) is one the
    style enumerates. *)
Theorem format_unencoded_returns (f : RtfFormatter)
    (tokensource : list token) :
  (∀ c, c ∈ scanned_colors (style f) → ∃ e, color_entry int16 c = Ok e) →
  (linenos f = true → linenostep f ≠ 0%Z) →
  (∀ tok, tok ∈ tokensource →
     enumerated (style f) (resolve (style f) tok.1)) →
  ∃ out, format_unencoded int16 f tokensource = Ok out.
Proof.
  intros Hparse Hstep Henum.
  assert (∃ r, color_table int16 (style f) [header f] = Ok r)
    as [[[m off] out1] Hct].
  { unfold color_table. rewrite for_each_nested.
    apply color_steps_ok. intros c Hc Hne. apply Hparse.
    rewrite scanned_colors_flat. apply list_elem_of_bind.
    exists c. split; [|done].
    rewrite bool_decide_eq_true_2 by done. by left. }
  unfold format_unencoded. rewrite Hct. cbn [mbind result_bind].
  pose proof (color_table_spec _ _ _ _ _ _ Hct) as [_ (entries & -> & _)].
  assert (∀ t, (∃ tok, tok ∈ tokensource ∧ t = tok.1) →
            Forall (λ c, is_Some (m !! c))
              (colors_of (style_for_token (style f) (resolve (style f) t))))
    as Hcol.
  { intros t (tok & Hin & ->). apply Forall_forall. intros c Hc.
    destruct (enumerated_color_indexed _ _ _ _ _ _ _ c Hct
                (enumerated_style _ _ (Henum tok Hin)) Hc)
      as (k & e & -> & _).
    by eexists. }
  destruct (linenos f) eqn:Hln.
  - destruct (prepass tokensource) as [n tokens] eqn:Hpre.
    edestruct (render_loop_ok f m (length (str n)) tokens) as [[[l o] body] ->].
    + by rewrite Hln.
    + intros tok Hin. apply Hcol.
      replace tokens with (prepass tokensource).2 in Hin by (by rewrite Hpre).
      apply prepass_types in Hin as (tok0 & Hin0 & Heq). eauto.
    + by eexists.
  - edestruct (render_loop_ok f m 0 tokensource) as [[[l o] body] ->].
    + by rewrite Hln.
    + intros tok Hin. apply Hcol. eauto.
    + by eexists.
Qed.

End failures.

(** * Further properties of the loop and of the first pass *)

Lemma for_each_ext {A S : Type} (body1 body2 : S → A → result S)
    (l : list A) :
  (∀ s a, body1 s a = body2 s a) →
  ∀ s, for_each body1 l s = for_each body2 l s.
Proof.
  intros Hext. induction l as [|a l IH]; intros s; [done|].
  cbn [for_each]. rewrite Hext. destruct (body2 s a); [apply IH|done].
Qed.

Lemma lineno_str_mod (f : RtfFormatter) (w : nat) (n : Z) :
  lineno_str f w n
  = if (n mod linenostep f =? 0)%Z then rjust (str n) w
    else replicate w SPACE.
Proof.
  unfold lineno_str.
  replace ((n - linenostep f) mod linenostep f)%Z
    with (n mod linenostep f)%Z.
  - destruct (_ =? _)%Z; [done|].
    unfold rjust. cbn [length]. by rewrite Nat.sub_0_r, app_nil_r.
  - destruct (decide (linenostep f = 0%Z)) as [->|Hne].
    + by rewrite Z.sub_0_r.
    + replace (n - linenostep f)%Z with (n + (-1) * linenostep f)%Z by lia.
      by rewrite Z.mod_add.
Qed.

Lemma split_lines (s : pystr) :
  Forall (λ line, NEWLINE ∉ line) (split NEWLINE s)
  ∧ length (split NEWLINE s) = S (newlines s).
Proof.
  induction s as [|c s [IHf IHl]].
  - split; [|done]. repeat constructor. apply not_elem_of_nil.
  - cbn [split]. unfold newlines in *. rewrite filter_cons.
    destruct (N.eqb_spec c NEWLINE) as [->|Hc].
    + rewrite decide_True by done. split.
      * constructor; [apply not_elem_of_nil|done].
      * cbn [length]. by rewrite IHl.
    + rewrite decide_False by done.
      destruct (split NEWLINE s) as [|p ps]; [done|].
      split; [|done]. apply Forall_cons in IHf as [Hp Hps].
      constructor; [|done]. rewrite not_elem_of_cons. split; [congruence|done].
Qed.

Section loop.

Variable int16 : pystr → option Z.

(** X10: with line numbers, the slots are numbered consecutively from
    the first line number, whatever it is: the slot of index [i] is that
    of line [linenostart + i], and it holds the numeral exactly when the
    line number is a multiple of the step, and blanks of the column width
    otherwise; with a step of 1 every slot holds its numeral. *)
Theorem lineno_slots (f : RtfFormatter) (tokensource : list token)
    (out : list pystr) :
  linenos f = true →
  format_unencoded int16 f tokensource = Ok out →
  let w := length (str (prepass tokensource).1) in
  ∀ (i : nat) (chunk : pystr),
    slots out !! i = Some chunk →
    let n := (linenostart f + Z.of_nat i)%Z in
    chunk
    = lineno_group f
        (if (n mod linenostep f =? 0)%Z then rjust (str n) w
         else replicate w SPACE)
    ∧ (linenostep f = 1%Z → chunk = lineno_group f (rjust (str n) w)).
Proof.
  intros Hln Hrun w i chunk.
  rewrite (format_unencoded_slots _ _ _ _ Hln Hrun), list_lookup_fmap.
  destruct (line_starts _ true (prepass tokensource).2 !! i) as [k|] eqn:Hk;
    [|done].
  apply line_starts_lookup in Hk.
  cbn [fmap option_fmap option_map]. intros [= <-]. cbv zeta.
  replace k with (linenostart f + Z.of_nat i)%Z by lia.
  rewrite lineno_str_mod.
  split; [done|]. intros ->. by rewrite Z.mod_1_r.
Qed.

(** X11: with line numbers, the number of slots is the number of tokens
    of the first pass that end in a newline when the last of them does (or
    there is none), and one more when the last token does not end in a
    newline. *)
Theorem slot_count (f : RtfFormatter) (tokensource : list token)
    (out : list pystr) :
  linenos f = true →
  format_unencoded int16 f tokensource = Ok out →
  let tokens := (prepass tokensource).2 in
  length (slots out)
  = if pending true tokens then length (newline_ended tokens)
    else S (length (newline_ended tokens)).
Proof.
  intros Hln Hrun tokens.
  rewrite (format_unencoded_slots _ _ _ _ Hln Hrun), length_fmap.
  pose proof (line_starts_length tokens (linenostart f) true) as Hlen.
  fold tokens. destruct (pending true tokens); lia.
Qed.

Lemma render_loop_unnumbered (f : RtfFormatter) (cm : gmap pystr Z)
    (w : nat) (tokens : list token) :
  linenos f = false →
  ∀ l o out l' o' out',
    for_each (render_token f cm w) tokens (l, o, out) = Ok (l', o', out') →
    out' = out ++ (tokens ≫= token_run f cm).
Proof.
  intros Hln. induction tokens as [|[t v] tokens IH];
    intros l o out l' o' out'.
  - cbn. intros [= <- <- <-]. by rewrite app_nil_r.
  - cbn [for_each]. rewrite render_token_eq, Hln. cbn [andb].
    rewrite style_start_spec. case_bool_decide; [|done].
    cbn [mbind result_bind mret result_ret]. intros Hloop.
    apply IH in Hloop as ->. rewrite bind_cons.
    by rewrite <- !app_assoc.
Qed.

(** X12: without line numbers, a document is the header, the colour
    table, the font size when there is one, and then for every token of
    the stream, in order, its escaped text, bare or in its group behind
    its control words; there is no slot, and what a token contributes does
    not depend on the tokens around it. *)
Theorem unnumbered_document (f : RtfFormatter) (tokensource : list token)
    (out : list pystr) :
  linenos f = false →
  format_unencoded int16 f tokensource = Ok out →
  ∃ m off entries,
    color_table int16 (style f) [header f] = Ok (m, off, header f :: entries)
    ∧ out = (header f :: entries) ++ [lit "}\f0 "]
            ++ (if bool_decide (fontsize f ≠ 0%Z)
                then [lit "\fs" ++ str (fontsize f)] else [])
            ++ (tokensource ≫= token_run f m) ++ [lit "}"]
    ∧ slots out = [].
Proof.
  intros Hln Hrun.
  pose proof Hrun as Hinv. apply format_unencoded_inv in Hinv
    as (m & off & entries & l & o & body & Hct & _ & Hpre & -> & Hloop).
  rewrite Hln in Hloop.
  pose proof (render_loop_unnumbered _ _ _ _ Hln _ _ _ _ _ _ Hloop) as ->.
  exists m, off, entries. split; [done|]. split.
  - by rewrite <- !app_assoc.
  - rewrite (slots_app _ [lit "}"]), (slots_app _ (tokensource ≫= _)), Hpre.
    cbn [app].
    replace (slots [lit "}"]) with (@nil pystr) by (by vm_compute).
    rewrite app_nil_r. clear.
    induction tokensource as [|tok toks IH]; [done|].
    rewrite bind_cons, slots_app, IH, app_nil_r.
    apply slots_styled_run.
Qed.

Lemma render_token_renumbered (f : RtfFormatter) (a b c : Z)
    (cm : gmap pystr Z) (w w' : nat) :
  linenos f = false →
  ∀ st tok, render_token f cm w st tok
            = render_token (renumbered f a b c) cm w' st tok.
Proof.
  intros Hln [[l o] out] [t v]. rewrite !render_token_eq.
  cbn [renumbered linenos style]. by rewrite Hln.
Qed.

(** X13: without line numbers, the options of the line numbers are not
    read: the formatter with any other font size, first number and step
    of the line numbers returns the same document, or raises the same
    exception. *)
Theorem line_number_options_unread (f : RtfFormatter) (a b c : Z)
    (tokensource : list token) :
  linenos f = false →
  format_unencoded int16 (renumbered f a b c) tokensource
  = format_unencoded int16 f tokensource.
Proof.
  intros Hln. unfold format_unencoded.
  change (header (renumbered f a b c)) with (header f).
  cbn [renumbered style fontsize linenos]. rewrite Hln.
  destruct (color_table int16 (style f) [header f]) as [[[m off] out1]|e];
    [|done].
  cbn [mbind result_bind].
  by rewrite (for_each_ext _ _ _
                (λ st tok, eq_sym (render_token_renumbered f a b c m 0 0
                                     Hln st tok))).
Qed.

End loop.

(** X14: a stream without doc strings goes through the first pass as it
    is, and the lines counted are its tokens that are a newline alone. *)
Theorem prepass_without_doc (tokensource : list token) :
  (∀ tok, tok ∈ tokensource → tok.1 ≠ Doc) →
  prepass tokensource
  = (Z.of_nat (length (filter (λ tok, tok.2 = [NEWLINE]) tokensource)),
     tokensource).
Proof.
  rewrite prepass_spec.
  induction tokensource as [|tok toks IH]; intros Hdoc; [done|].
  assert (tok.1 ≠ Doc) as Htok by (apply Hdoc; by left).
  assert (∀ tok', tok' ∈ toks → tok'.1 ≠ Doc) as Htoks
    by (intros tok' Hin; apply Hdoc; by right).
  specialize (IH Htoks). injection IH as IHn IHt.
  cbn [foldr]. rewrite bind_cons, IHn, IHt, filter_cons.
  unfold boundaries, fragments. rewrite !bool_decide_eq_false_2 by done.
  case_bool_decide; [rewrite decide_True by done|rewrite decide_False by done];
    cbn [length app]; f_equal; unfold token in *; lia.
Qed.

(** X15: the first pass makes single lines of a doc string: every doc
    string token it returns is a line without a newline followed by one
    newline, the other tokens are tokens of the stream, and a doc string
    with [n] newlines gives [n + 1] tokens and counts for [n + 1]
    lines. *)
Theorem prepass_doc_lines (tokensource : list token) :
  (∀ tok, tok ∈ (prepass tokensource).2 →
     if bool_decide (tok.1 = Doc)
     then ∃ line, tok.2 = line ++ [NEWLINE] ∧ NEWLINE ∉ line
     else tok ∈ tokensource)
  ∧ ∀ value,
      prepass [(Doc, value)]
      = (Z.of_nat (S (newlines value)),
         (λ line, (Doc, line ++ [NEWLINE])) <$> split NEWLINE value)
      ∧ length (split NEWLINE value) = S (newlines value).
Proof.
  split.
  - rewrite prepass_spec. cbn [snd]. intros tok Hin.
    apply list_elem_of_bind in Hin as (src & Hin & Hsrc).
    unfold fragments in Hin. case_bool_decide as Hd.
    + apply list_elem_of_fmap in Hin as (line & -> & Hline). cbn [fst snd].
      rewrite bool_decide_eq_true_2 by done. exists line. split; [done|].
      destruct (split_lines src.2) as [Hf _].
      rewrite Forall_forall in Hf. by apply Hf.
    + apply list_elem_of_singleton in Hin as ->.
      by rewrite bool_decide_eq_false_2.
  - intros value. destruct (split_lines value) as [_ Hlen].
    split; [|done]. rewrite prepass_spec. cbn [foldr].
    rewrite bind_singleton. unfold boundaries, fragments. cbn [fst snd].
    rewrite !bool_decide_eq_true_2 by done. rewrite Hlen.
    f_equal; lia.
Qed.

(** X16: the walk of the loop goes up from the token type while the
    type has no style and its parent is true, and the root, an empty
    tuple, is false: the result is the type or one of its ancestors, it is
    never the root unless the token type is the root, it has a style of
    its own unless it is the root or right under the root, every type
    between the token type and it has none, and walking again from it
    changes nothing. *)
Theorem resolve_nearest (sty : Style) (t : _TokenType) :
  resolve sty t `suffix_of` t
  ∧ (t ≠ [] → resolve sty t ≠ [])
  ∧ (styles_token sty (resolve sty t) = true
     ∨ has_parent (resolve sty t) = false)
  ∧ (∀ p, p `suffix_of` t → (length (resolve sty t) < length p)%nat →
          styles_token sty p = false)
  ∧ resolve sty (resolve sty t) = resolve sty t.
Proof.
  induction t as [|name t (IHs & IHne & IHr & IHn & IHi)].
  - cbn. destruct (styles_token sty []) eqn:Hs; cbn; rewrite ?Hs;
      (split; [done|]); (split; [done|]); (split; [by right|]);
      (split; [|done]); intros p Hp Hlen;
      apply suffix_nil_inv in Hp as ->; cbn in Hlen; lia.
  - cbn [resolve].
    destruct (styles_token sty (name :: t)) eqn:Hs; cbn [negb].
    + split; [done|]. split; [done|]. split; [by left|]. split.
      * intros p Hp Hlen. apply suffix_length in Hp. lia.
      * cbn [resolve]. by rewrite Hs.
    + destruct t as [|name' t].
      * split; [done|]. split; [done|]. split; [by right|]. split.
        -- intros p Hp Hlen. apply suffix_length in Hp. lia.
        -- cbn [resolve]. by rewrite Hs.
      * split; [by apply suffix_cons_r|].
        split; [intros _; by apply IHne|]. split; [done|]. split; [|done].
        intros p Hp Hlen. destruct p as [|x p]; [cbn in Hlen; lia|].
        apply suffix_cons_inv in Hp as [[= -> ->]|Hp]; [done|].
        by apply IHn.
Qed.

Lemma str_digits (n : Z) : (0 ≤ n)%Z → Forall digit_or_blank (str n).
Proof.
  intros Hn. destruct n as [|p|p]; [| |lia].
  - apply List.Forall_cons; [|constructor].
    unfold digit_or_blank. right. by vm_compute.
  - cbn [str]. eapply Forall_impl; [apply digits_chars|].
    intros c Hc. unfold digit_or_blank. by right.
Qed.

(** X17: the line numbers of a formatter that [__init__] built are
    never negative, so with line numbers every slot of a document is the
    group of a line number around digits and blanks only: no sign is ever
    written, whatever the options were. *)
Theorem slots_digits (int16 : pystr → option Z) (options : Options)
    (tokensource : list token) (out : list pystr) :
  linenos (__init__ options) = true →
  format_unencoded int16 (__init__ options) tokensource = Ok out →
  ∀ chunk, chunk ∈ slots out →
    ∃ s, chunk = lineno_group (__init__ options) s ∧ Forall digit_or_blank s.
Proof.
  intros Hln Hrun chunk.
  rewrite (format_unencoded_slots _ _ _ _ Hln Hrun).
  intros Hin. apply list_elem_of_fmap in Hin as (n & -> & Hn).
  eexists. split; [reflexivity|].
  apply list_elem_of_lookup in Hn as [i Hi].
  apply line_starts_lookup in Hi.
  assert (0 ≤ n)%Z as Hpos.
  { subst n. cbn [__init__ linenostart]. lia. }
  unfold lineno_str. destruct (_ =? _)%Z; apply rjust_Forall;
    try (by unfold digit_or_blank; left);
    first [by apply str_digits | constructor].
Qed.

(** ** Runs of the further properties *)

Lemma document_balanced_witness :
  format_unencoded hex_int numbered_formatter scenario = Ok scenario_document
  ∧ groups (concat scenario_document) (Some (O, false)) = Some (O, false).
Proof.
  assert (format_unencoded hex_int numbered_formatter scenario
          = Ok scenario_document) as Hrun by (vm_compute; reflexivity).
  split; [exact Hrun|].
  exact (document_balanced hex_int _ _ _ Hrun).
Defined.

Lemma document_seven_bit_witness :
  format_unencoded hex_int plain_formatter scenario = Ok scenario_unnumbered
  ∧ (Forall seven_bit (concat scenario_unnumbered)
     ↔ Forall seven_bit (fontface plain_formatter)).
Proof.
  assert (format_unencoded hex_int plain_formatter scenario
          = Ok scenario_unnumbered) as Hrun by (vm_compute; reflexivity).
  split; [exact Hrun|].
  exact (document_seven_bit hex_int _ _ _ Hrun).
Defined.

Lemma format_unencoded_returns_witness :
  ∃ out, format_unencoded hex_int standard_formatter scenario = Ok out.
Proof.
  apply (format_unencoded_returns hex_int standard_formatter scenario).
  - intros c Hin. apply list_elem_of_In in Hin. vm_compute in Hin.
    destruct Hin as [<-|[<-|[]]]; eexists; vm_compute; reflexivity.
  - intros _. vm_compute. discriminate.
  - intros tok Hin.
    repeat (apply elem_of_cons in Hin as [->|Hin]);
      try (by apply elem_of_nil in Hin);
      apply list_elem_of_In; vm_compute; tauto.
Defined.

Lemma lineno_slots_witness :
  format_unencoded hex_int numbered_formatter scenario = Ok scenario_document
  ∧ ∀ (i : nat) (chunk : pystr),
      slots scenario_document !! i = Some chunk →
      chunk
      = lineno_group numbered_formatter (rjust (str (1 + Z.of_nat i)) 1).
Proof.
  assert (format_unencoded hex_int numbered_formatter scenario
          = Ok scenario_document) as Hrun by (vm_compute; reflexivity).
  split; [exact Hrun|]. intros i chunk Hi.
  exact (proj2 (lineno_slots hex_int numbered_formatter scenario
                  scenario_document eq_refl Hrun i chunk Hi) eq_refl).
Defined.

Lemma slot_count_witness :
  format_unencoded hex_int numbered_formatter open_line = Ok open_document
  ∧ length (slots open_document) = 1%nat.
Proof.
  assert (format_unencoded hex_int numbered_formatter open_line
          = Ok open_document) as Hrun by (vm_compute; reflexivity).
  split; [exact Hrun|].
  exact (slot_count hex_int numbered_formatter open_line open_document
           eq_refl Hrun).
Defined.

Lemma unnumbered_document_witness :
  format_unencoded hex_int plain_formatter scenario = Ok scenario_unnumbered
  ∧ ∃ m off entries,
      color_table hex_int (style plain_formatter) [header plain_formatter]
      = Ok (m, off, header plain_formatter :: entries)
      ∧ scenario_unnumbered
        = (header plain_formatter :: entries) ++ [lit "}\f0 "]
          ++ (if bool_decide (fontsize plain_formatter ≠ 0%Z)
              then [lit "\fs" ++ str (fontsize plain_formatter)] else [])
          ++ (scenario ≫= token_run plain_formatter m) ++ [lit "}"]
      ∧ slots scenario_unnumbered = [].
Proof.
  assert (format_unencoded hex_int plain_formatter scenario
          = Ok scenario_unnumbered) as Hrun by (vm_compute; reflexivity).
  split; [exact Hrun|].
  exact (unnumbered_document hex_int plain_formatter scenario
           scenario_unnumbered eq_refl Hrun).
Defined.

Lemma line_number_options_unread_witness :
  format_unencoded hex_int (renumbered plain_formatter 10 7 0) scenario
  = format_unencoded hex_int plain_formatter scenario.
Proof.
  exact (line_number_options_unread hex_int plain_formatter 10 7 0 scenario
           eq_refl).
Defined.

Lemma prepass_without_doc_witness :
  prepass comment_line = (1%Z, comment_line).
Proof.
  rewrite (prepass_without_doc comment_line); [by vm_compute|].
  intros tok Hin.
  repeat (apply elem_of_cons in Hin as [->|Hin]);
    try (by apply elem_of_nil in Hin); by vm_compute.
Defined.

Lemma slots_digits_witness :
  format_unencoded hex_int (__init__ negative_start_options) open_line
  = Ok negative_start_document
  ∧ lit "{\fs18 \cf1 3  }" ∈ slots negative_start_document
  ∧ ∀ chunk, chunk ∈ slots negative_start_document →
      ∃ s, chunk = lineno_group (__init__ negative_start_options) s
           ∧ Forall digit_or_blank s.
Proof.
  assert (format_unencoded hex_int (__init__ negative_start_options) open_line
          = Ok negative_start_document) as Hrun by (vm_compute; reflexivity).
  split; [exact Hrun|]. split; [apply list_elem_of_In; vm_compute; tauto|].
  exact (slots_digits hex_int negative_start_options open_line
           negative_start_document eq_refl Hrun).
Defined.
